(** * Semantic proximity auditor: a shallow embedding of [app.py] and
      [relevance_scorer.py]

    The development follows the two source files:
    - [PyStr]: the built-in [str] operations the scripts use
      ([in], [strip], [len], [join], truthiness);
    - [PyFloat]: binary64 comparison, for the banding thresholds;
    - [Runtime]: the effects of a script run (calls to the models, to the
      network, to the Streamlit widgets; exceptions; the session state);
    - [App]: [fetch_url_content], [extract_keywords], the two fetch buttons
      and the analysis block of [app.py];
    - [Scorer]: one round of the loop of [relevance_scorer.py];
    - the properties of the specification, one theorem each. *)

From Stdlib Require Import ZArith NArith List String Ascii Bool Lia.
From Stdlib Require Import Floats.SpecFloat.
From stdpp Require Import base gmap strings list fin_maps.

Import ListNotations.
Local Open Scope nat_scope.

(* ===================================================================== *)
(** ** Python [str] *)
(* ===================================================================== *)

(** A Python [str] is a sequence of Unicode code points. *)
Abbreviation char := N (only parsing).
Abbreviation str := (list N) (only parsing).

Module PyStr.

(** A source literal, character by character (ASCII literals only). *)
Definition py (s : string) : str :=
  List.map N_of_ascii (list_ascii_of_string s).

(** [bool(s)]: a string is true when it is not empty. *)
Definition truthy {A : Type} (s : list A) : bool :=
  match s with [] => false | _ :: _ => true end.

(** [s.startswith(p)]. *)
Fixpoint startswith (s p : str) : bool :=
  match p, s with
  | [], _ => true
  | _ :: _, [] => false
  | c :: p', d :: s' => N.eqb d c && startswith s' p'
  end.

(** [needle in hay]: [needle] starts at some position of [hay]. *)
Fixpoint contains (hay needle : str) : bool :=
  startswith hay needle ||
  match hay with
  | [] => false
  | _ :: hay' => contains hay' needle
  end.

(** The code points [str.isspace] accepts, which are those [str.strip]
    removes when called without argument. *)
Definition isspace (c : char) : bool :=
  ((9 <=? c) && (c <=? 13) || (28 <=? c) && (c <=? 32) ||
   (c =? 133) || (c =? 160) || (c =? 5760) ||
   (8192 <=? c) && (c <=? 8202) ||
   (c =? 8232) || (c =? 8233) || (c =? 8239) || (c =? 8287) ||
   (c =? 12288))%N.

Fixpoint lstrip (s : str) : str :=
  match s with
  | [] => []
  | c :: s' => if isspace c then lstrip s' else s
  end.

Definition rstrip (s : str) : str := rev (lstrip (rev s)).

(** [s.strip()]. *)
Definition strip (s : str) : str := rstrip (lstrip s).

(** [sep.join(parts)]. *)
Fixpoint join (sep : str) (parts : list str) : str :=
  match parts with
  | [] => []
  | [p] => p
  | p :: rest => p ++ sep ++ join sep rest
  end.

(** Literal occurrence: [needle] sits between a prefix and a suffix of
    [hay]. *)
Definition occurs_in (needle hay : str) : Prop :=
  exists pre post, hay = pre ++ needle ++ post.

(** No whitespace at the start, none at the end. *)
Definition starts_clean (s : str) : Prop :=
  forall c r, s = c :: r -> isspace c = false.

Definition ends_clean (s : str) : Prop :=
  forall r c, s = r ++ [c] -> isspace c = false.

End PyStr.

(* ===================================================================== *)
(** ** Python [float] *)
(* ===================================================================== *)

(** A Python [float] is an IEEE 754 binary64 value; [spec_float] is the
    Standard Library's description of these values and of their
    comparison (a NaN compares false with everything). *)
Abbreviation float := spec_float (only parsing).

Module PyFloat.

(** [a > b] and [a <= b]. *)
Definition gt (a b : float) : bool := SFltb b a.
Definition le (a b : float) : bool := SFleb a b.

(** The literals [0.60] (also written [0.6]) and [0.40] ([0.4]): the
    binary64 values nearest to 6/10 and to 4/10. *)
Definition lit_0_60 : float := S754_finite false 5404319552844595 (-53).
Definition lit_0_40 : float := S754_finite false 7205759403792794 (-54).

(** The literals [0.0] and [1.0]. *)
Definition lit_0_0 : float := S754_zero false.
Definition lit_1_0 : float := S754_finite false 4503599627370496 (-52).

(** What the interpreter reads for [0.6001] and [0.4001]. *)
Definition lit_0_6001 : float := S754_finite false 5405220272770069 (-53).
Definition lit_0_4001 : float := S754_finite false 7207560843643742 (-54).

End PyFloat.

(* ===================================================================== *)
(** ** What a script run does: calls, widgets, exceptions, session state *)
(* ===================================================================== *)

Abbreviation vector := (list spec_float) (only parsing).
Abbreviation session := (gmap string (list N)) (only parsing).

Module Runtime.

(** Exceptions derived from [Exception]. *)
Inductive exn : Type :=
| KeyError (key : string)
| HTTPError (status_code : N)
| Exception (msg : string).

(** What [requests.get] returns. *)
Record Response : Type := { status_code : N; content : list N }.

(** The libraries the scripts call; each call either returns or raises.
    [kw_model_extract_keywords text top_n] stands for
    [kw_model.extract_keywords(text, keyphrase_ngram_range=(1, 2),
    stop_words='english', top_n=top_n)], [find_all_text content] for the
    [get_text()] of the elements
    [BeautifulSoup(content, 'html.parser').find_all(['p','h1','h2','h3','li'])]
    in document order, and [requests_get url] for
    [requests.get(url, headers=headers, timeout=10)]. *)
Record World : Type := {
  lower : str -> str;
  requests_get : str -> exn + Response;
  find_all_text : list N -> exn + list str;
  model_encode : str -> exn + vector;
  model_similarity : vector -> vector -> exn + float;
  kw_model_extract_keywords : str -> nat -> exn + list (str * float)
}.

(** The observable steps of a run, in order: calls that leave the process
    or enter a model, and what is written to the page or the terminal.
    Layout-only calls ([st.divider], [st.columns], [st.spinner], titles and
    captions) are not recorded. *)
Inductive effect : Type :=
| call_requests_get (url : str)
| call_encode (text : str)
| call_similarity (a b : vector)
| call_extract_keywords (text : str) (top_n : nat)
| st_warning (msg : string)
| st_success (msg : string)
| st_error (msg : string)
| st_info (msg : string)
| st_error_fetching (e : exn)        (* st.error(f"Error fetching URL: {e}") *)
| st_success_fetched (n : nat)       (* st.success(f"Fetched {len(text)} characters.") *)
| st_metric (score : float)          (* st.metric("Score", f"{score:.4f}") *)
| st_progress (score : float)
| st_error_missing (n : nat)         (* st.error(f"MISSING TOPICS ({len(missing_kws)})") *)
| st_markdown_kw (kw : str)          (* st.markdown(f"- **{kw}**") *)
| st_write (text : str)
| print_score (score : float)        (* print(f"\n>>> Semantic Score: {score:.4f}") *)
| print (msg : string).

(** How a block ends: it returns, an exception leaves it, or [st.rerun()]
    stops the run (Streamlit's rerun signal is not an [Exception]). *)
Inductive result (A : Type) : Type :=
| Returned (a : A)
| Raised (e : exn)
| Rerun.
Arguments Returned {A} a.
Arguments Raised {A} e.
Arguments Rerun {A}.

Record Run (A : Type) : Type := mkRun {
  log : list effect;
  final : session;
  res : result A
}.
Arguments mkRun {A} log final res.
Arguments log {A} r.
Arguments final {A} r.
Arguments res {A} r.

(** A block of script: from the session state it starts in to what it
    did, the session state it leaves and how it ended. *)
Definition io (A : Type) : Type := session -> Run A.

Definition io_ret {A : Type} (a : A) : io A :=
  fun s => mkRun [] s (Returned a).

Definition io_bind {A B : Type} (k : A -> io B) (m : io A) : io B :=
  fun s =>
    let r := m s in
    match res r with
    | Returned a =>
        let r' := k a (final r) in
        mkRun (log r ++ log r') (final r') (res r')
    | Raised e => mkRun (log r) (final r) (Raised e)
    | Rerun => mkRun (log r) (final r) Rerun
    end.

#[global] Instance io_mret : MRet io := @io_ret.
#[global] Instance io_mbind : MBind io := @io_bind.

(** One recorded step. *)
Definition emit (e : effect) : io unit :=
  fun s => mkRun [e] s (Returned tt).

(** A library computation that is not recorded. *)
Definition lift {A : Type} (r : exn + A) : io A :=
  fun s => mkRun [] s (match r with inl e => Raised e | inr a => Returned a end).

(** A recorded library call. *)
Definition call {A : Type} (e : effect) (r : exn + A) : io A :=
  emit e;; lift r.

Definition raise {A : Type} (e : exn) : io A :=
  fun s => mkRun [] s (Raised e).

Definition st_rerun {A : Type} : io A :=
  fun s => mkRun [] s Rerun.

(** [key not in st.session_state], [st.session_state[key]] and
    [st.session_state[key] = v]. *)
Definition session_lacks (key : string) : io bool :=
  fun s => mkRun [] s (Returned (match s !! key with None => true | Some _ => false end)).

Definition session_get (key : string) : io str :=
  fun s => mkRun [] s (match s !! key with
                       | Some v => Returned v
                       | None => Raised (KeyError key)
                       end).

Definition session_set (key : string) (v : str) : io unit :=
  fun s => mkRun [] (<[key := v]> s) (Returned tt).

(** [try: body except Exception as e: handler e]. *)
Definition try_except {A : Type} (body : io A) (handler : exn -> io A) : io A :=
  fun s =>
    let r := body s in
    match res r with
    | Raised e =>
        let r' := handler e (final r) in
        mkRun (log r ++ log r') (final r') (res r')
    | _ => r
    end.

(** The calls of a log that reach the embedding model, the keyphrase
    model or the network. *)
Definition is_call (e : effect) : bool :=
  match e with
  | call_requests_get _ | call_encode _ | call_similarity _ _
  | call_extract_keywords _ _ => true
  | _ => false
  end.

Definition calls (l : list effect) : list effect := List.filter is_call l.

(** The scores a log shows with [st.metric]. *)
Definition shown_scores (l : list effect) : list float :=
  flat_map (fun e => match e with st_metric x => [x] | _ => [] end) l.

(** What a library call contributes to a run. *)
Definition outcome {A : Type} (r : exn + A) : result A :=
  match r with inl e => Raised e | inr a => Returned a end.

(** The keyphrases a log shows as bullets, in order. *)
Definition bullets (l : list effect) : list str :=
  flat_map (fun e => match e with st_markdown_kw kw => [kw] | _ => [] end) l.

End Runtime.

(* ===================================================================== *)
(** ** [app.py] *)
(* ===================================================================== *)

Module App.
Import PyStr PyFloat Runtime.

(** The qualitative band of a score. *)
Inductive Band : Type := Strong | Moderate | Low.

(** The chain [if score > 0.60: ... elif score > 0.40: ... else: ...]. *)
Definition band (score : float) : Band :=
  if gt score lit_0_60 then Strong
  else if gt score lit_0_40 then Moderate
  else Low.

(** The message each branch of the chain shows. *)
Definition band_message (b : Band) : effect :=
  match b with
  | Strong => st_success "Strong relevance to the keyword."
  | Moderate => st_warning "Moderate relevance. Needs more depth."
  | Low => st_error "Low relevance. Content may be off-topic."
  end.

(** The range check of [st.progress] on a float: from 0.0 to 1.0, which
    excludes a NaN. *)
Definition progress_accepts (score : float) : bool :=
  le lit_0_0 score && le score lit_1_0.

(** [st.progress(score)]: the bar is drawn for a value Streamlit accepts,
    and an exception leaves the call for any other. *)
Definition show_progress (score : float) : io unit :=
  if progress_accepts score then emit (st_progress score)
  else raise (Exception "StreamlitAPIException").

(** The two fields a run can reject, and the warnings naming them. *)
Inductive Field : Type := TargetKeyword | MyPageContent.

Definition invalid_message (f : Field) : effect :=
  match f with
  | TargetKeyword => st_warning "⚠️ Please provide a Target Keyword."
  | MyPageContent =>
      st_warning "⚠️ Please fetch or paste 'My Page' content (at least 50 characters)."
  end.

(** The lists bound by the gap analysis. *)
Record GapReport : Type := {
  gap_comp_kws : list str;
  gap_my_kws : list str;
  gap_missing : list str;
  gap_shared : list str
}.

Record RelevanceResult : Type := {
  rel_score : float;
  rel_band : Band
}.

(** What a run of the analysis block established: it stopped at one of
    the two warnings, or it produced a score and, when a competitor text
    is stored, the lists of the gap analysis. *)
Inductive Outcome : Type :=
| InvalidInput (field : Field)
| AuditReport (relevance : RelevanceResult) (gap : option GapReport).

(** [response.raise_for_status()]: client and server error codes raise. *)
Definition raise_for_status (response : Response) : io unit :=
  if ((400 <=? status_code response) && (status_code response <? 600))%N
  then raise (HTTPError (status_code response))
  else mret tt.

(** The text kept from the elements of a page: the stripped texts longer
    than 25 characters, joined by a space. *)
Definition extracted_text (text_elements : list str) : str :=
  join (py " ")
       (List.map strip
          (List.filter (fun t => 25 <? length (strip t)) text_elements)).

Section WithWorld.
Context (W : World).

(** [fetch_url_content(url)]. *)
Definition fetch_url_content (url : str) : io (option str) :=
  try_except
    (response ← call (call_requests_get url) (requests_get W url);
     raise_for_status response;;
     text_elements ← lift (find_all_text W (content response));
     mret (Some (extracted_text text_elements)))
    (fun e => emit (st_error_fetching e);; mret None).

(** [extract_keywords(text, top_n)]. *)
Definition extract_keywords (text : str) (top_n : nat) : io (list (str * float)) :=
  if negb (truthy text) then mret []
  else call (call_extract_keywords text top_n)
            (kw_model_extract_keywords W text top_n).

(** The body of a pressed fetch button, storing under [key]; [if text:]
    is false on [None] and on the empty string. *)
Definition fetch_into (key : string) (url : str) : io unit :=
  if truthy url then
    text ← fetch_url_content url;
    match text with
    | Some t =>
        if truthy t then
          session_set key t;;
          emit (st_success_fetched (length t));;
          st_rerun
        else mret tt
    | None => mret tt
    end
  else mret tt.

(** [if st.button("Fetch Competitor", ...)] and
    [if st.button("Fetch My Page", ...)], button pressed. *)
Definition fetch_competitor (comp_url : str) : io unit :=
  fetch_into "competitor_text" comp_url.

Definition fetch_my_page (my_url : str) : io unit :=
  fetch_into "my_text" my_url.

(** Lines 15-18: the two keys exist from the first run on. *)
Definition init_key (key : string) : io unit :=
  absent ← session_lacks key;
  if (absent : bool) then session_set key [] else mret tt.

Definition init_session_state : io unit :=
  init_key "my_text";; init_key "competitor_text".

(** The two comprehensions of the gap analysis. *)
Definition missing_kws (comp_kws : list str) (my_content_final : str) : list str :=
  List.filter
    (fun kw => negb (contains (lower W my_content_final) (lower W kw)))
    comp_kws.

Definition shared (comp_kws : list str) (my_content_final : str) : list str :=
  List.filter
    (fun kw => contains (lower W my_content_final) (lower W kw))
    comp_kws.

(** [for kw in missing_kws: st.markdown(f"- **{kw}**")]. *)
Definition markdown_each (kws : list str) : io unit :=
  foldr (fun kw rest => emit (st_markdown_kw kw);; rest) (mret tt) kws.

(** Step 3 of the analysis block, competitor text present. *)
Definition gap_analysis (competitor_text my_content_final : str) : io GapReport :=
  comp ← extract_keywords competitor_text 25;
  let comp_kws := List.map fst comp in
  mine ← extract_keywords my_content_final 25;
  let my_kws := List.map fst mine in
  let missing := missing_kws comp_kws my_content_final in
  emit (st_error_missing (length missing));;
  (if truthy missing
   then markdown_each missing
   else emit (st_success "No major semantic gaps found!"));;
  emit (st_info "SHARED TOPICS");;
  let shared_kws := shared comp_kws my_content_final in
  emit (st_write (join (py ", ") shared_kws));;
  mret {| gap_comp_kws := comp_kws; gap_my_kws := my_kws;
          gap_missing := missing; gap_shared := shared_kws |}.

(** The block under [if analyze_btn:]. *)
Definition analyze (target_keyword my_content_final : str) : io Outcome :=
  if negb (truthy target_keyword) then
    emit (invalid_message TargetKeyword);; mret (InvalidInput TargetKeyword)
  else if negb (truthy my_content_final)
          || (length (strip my_content_final) <? 50) then
    emit (invalid_message MyPageContent);; mret (InvalidInput MyPageContent)
  else
    emb_kw ← call (call_encode target_keyword) (model_encode W target_keyword);
    emb_my ← call (call_encode my_content_final) (model_encode W my_content_final);
    score ← call (call_similarity emb_kw emb_my) (model_similarity W emb_kw emb_my);
    emit (st_metric score);;
    show_progress score;;
    emit (band_message (band score));;
    let relevance := {| rel_score := score; rel_band := band score |} in
    competitor_text ← session_get "competitor_text";
    if truthy competitor_text then
      gap ← gap_analysis competitor_text my_content_final;
      mret (AuditReport relevance (Some gap))
    else
      emit (st_info "💡 Tip: Fetch a Competitor URL to see Gap Analysis.");;
      mret (AuditReport relevance None).

(** The widget values of one run: the three text inputs, the button that
    was pressed if any, and the text area, which returns a content for the
    default it is given. *)
Record Widgets : Type := {
  target_keyword : str;
  comp_url : str;
  my_url : str;
  fetch_competitor_pressed : bool;
  fetch_my_page_pressed : bool;
  analyze_btn : bool;
  text_area : str -> str
}.

(** [if st.session_state[key]: ... st.write(st.session_state[key][:1000] + "...")]. *)
Definition preview (key : string) : io unit :=
  text ← session_get key;
  if truthy text then emit (st_write (firstn 1000 text ++ py "..."))
  else mret tt.

(** One run of the script, top to bottom. *)
Definition script (w : Widgets) : io (option Outcome) :=
  init_session_state;;
  (if fetch_competitor_pressed w then fetch_competitor (comp_url w) else mret tt);;
  preview "competitor_text";;
  (if fetch_my_page_pressed w then fetch_my_page (my_url w) else mret tt);;
  preview "my_text";;
  my_text ← session_get "my_text";
  let my_content_final := text_area w my_text in
  if analyze_btn w then
    o ← analyze (target_keyword w) my_content_final;
    mret (Some o)
  else mret None.

End WithWorld.

(** The bands from the lowest to the highest. *)
Definition band_rank (b : Band) : nat :=
  match b with Low => 0 | Moderate => 1 | Strong => 2 end.

(** *** What the blocks are expected to leave in the log *)

(** The rendering of the two lists. *)
Definition gap_rendering (missing shared_kws : list str) : list effect :=
  st_error_missing (length missing) ::
  (if truthy missing then List.map st_markdown_kw missing
   else [st_success "No major semantic gaps found!"]) ++
  [st_info "SHARED TOPICS"; st_write (join (py ", ") shared_kws)].

(** What the block has done when the score is shown. *)
Definition metric_log (target_keyword my_content_final : str)
           (emb_kw emb_my : vector) (score : float) : list effect :=
  [call_encode target_keyword; call_encode my_content_final;
   call_similarity emb_kw emb_my; st_metric score].

(** What the block shows once the three model calls have returned and the
    progress bar is drawn. *)
Definition scoring_log (target_keyword my_content_final : str)
           (emb_kw emb_my : vector) (score : float) : list effect :=
  [call_encode target_keyword; call_encode my_content_final;
   call_similarity emb_kw emb_my;
   st_metric score; st_progress score; band_message (band score)].

(** What [preview] shows for a stored text. *)
Definition preview_log (text : str) : list effect :=
  if truthy text then [st_write (firstn 1000 text ++ py "...")] else [].

(** The session state after lines 15-18. *)
Definition init_state (s : session) : session :=
  let s1 := match s !! "my_text"%string with
            | None => <["my_text"%string := []]> s
            | Some _ => s
            end in
  match s1 !! "competitor_text"%string with
  | None => <["competitor_text"%string := []]> s1
  | Some _ => s1
  end.

(** The ways the body of [fetch_url_content] can fail: the request
    raises, the status is an error, or the page cannot be read. *)
Inductive fetch_failure (W : World) (url : str) : exn -> Prop :=
| request_failed e :
    requests_get W url = inl e -> fetch_failure W url e
| status_failed response :
    requests_get W url = inr response ->
    (400 <= status_code response < 600)%N ->
    fetch_failure W url (HTTPError (status_code response))
| parse_failed response e :
    requests_get W url = inr response ->
    ~ (400 <= status_code response < 600)%N ->
    find_all_text W (content response) = inl e ->
    fetch_failure W url e.

End App.

(* ===================================================================== *)
(** ** [relevance_scorer.py] *)
(* ===================================================================== *)

Module Scorer.
Import PyStr PyFloat Runtime.

(** How one pass through the body of [while True:] ends. *)
Inductive Control : Type := Break | Continue.

(** Step 4, the chain [if score > 0.6: ... elif score > 0.4: ... else: ...]. *)
Definition feedback (score : float) : effect :=
  if gt score lit_0_60 then print "✅ EXCELLENT: Highly relevant context."
  else if gt score lit_0_40 then
    print "⚠️  OKAY: Somewhat relevant, but could be tighter."
  else print "❌ POOR: The text drifts away from the keyword topic.".

(** One pass through the loop of [main]: [target_keyword] is the first
    line read and [lines] are the lines read before the first empty one.
    The banner and the prompts are not recorded. *)
Definition round (W : World) (target_keyword : str) (lines : list str) : io Control :=
  if negb (truthy target_keyword) then mret Break
  else
    let content_text := join [10%N] lines in
    if negb (truthy content_text) then mret Continue
    else
      keyword_emb ← call (call_encode target_keyword) (model_encode W target_keyword);
      content_emb ← call (call_encode content_text) (model_encode W content_text);
      score ← call (call_similarity keyword_emb content_emb)
                   (model_similarity W keyword_emb content_emb);
      emit (print_score score);;
      emit (feedback score);;
      mret Continue.

(** Where [main] is in its two nested loops: about to read the keyword
    of a round, or inside the inner loop with the keyword read and the
    [lines] appended so far. *)
Inductive Reading : Type :=
| AwaitKeyword
| ReadingText (target_keyword : str) (lines : list str).

(** The loops of [main] over the lines still on standard input; [input()]
    on an exhausted input raises [EOFError]. The empty keyword breaks the
    outer loop, the empty line breaks the inner one and the rest of the
    round follows. *)
Fixpoint main_from (W : World) (at_ : Reading) (stdin : list str) : io unit :=
  match stdin with
  | [] => raise (Exception "EOFError")
  | line :: rest =>
      match at_ with
      | AwaitKeyword =>
          if negb (truthy line) then mret tt
          else main_from W (ReadingText line []) rest
      | ReadingText target_keyword lines =>
          if truthy line
          then main_from W (ReadingText target_keyword (lines ++ [line])) rest
          else
            c ← round W target_keyword lines;
            match c with
            | Break => mret tt
            | Continue => main_from W AwaitKeyword rest
            end
      end
  end.

(** [main()], the model once loaded. *)
Definition main (W : World) (stdin : list str) : io unit :=
  main_from W AwaitKeyword stdin.

End Scorer.

(* ===================================================================== *)
(** ** A small world to run the scripts in *)
(* ===================================================================== *)

Module Demo.
Import PyStr PyFloat Runtime App.

(** [str.lower] on ASCII text. *)
Definition ascii_lower (s : str) : str :=
  List.map (fun c => if ((65 <=? c) && (c <=? 90))%N then (c + 32)%N else c) s.

Definition str_eqb (a b : str) : bool := bool_decide (a = b).

Definition topic : str := py "cloud storage".

Definition user_document : str :=
  py "Our Cloud Storage service offers encrypted backups for teams.".

Definition competitor_document : str :=
  py "Cloud storage with encrypted backups and data redundancy everywhere.".

(** A text on which the keyphrase model of the demo world fails. *)
Definition broken_document : str := py "????????".

Definition f0_70 : float := S754_finite false 6305039478318694 (-53).
Definition f0_50 : float := S754_finite false 4503599627370496 (-53).
Definition f0_30 : float := S754_finite false 5404319552844595 (-54).

(** The page behind the one URL that answers. *)
Definition page : list N :=
  py "<p>Cloud storage with encrypted backups and data redundancy everywhere.</p><li>Home</li>".

(** Embeddings have two coordinates here; the similarity of two texts is
    0.70, the keyphrase model knows the competitor page and fails on
    [broken_document]. *)
Definition world : World := {|
  lower := ascii_lower;
  requests_get url :=
    if str_eqb url (py "https://them.com/blog")
    then inr {| status_code := 200; content := page |}
    else if str_eqb url (py "https://them.com/gone")
    then inr {| status_code := 404; content := [] |}
    else inl (Exception "ConnectionError");
  find_all_text c :=
    if str_eqb c page then inr [competitor_document; py " Home "]
    else inr [];
  model_encode text := inr [f0_50; f0_30];
  model_similarity a b := inr f0_70;
  kw_model_extract_keywords text top_n :=
    if str_eqb text competitor_document
    then inr (firstn top_n [(py "cloud storage", f0_70);
                            (py "encrypted backups", f0_50);
                            (py "data redundancy", f0_30)])
    else if str_eqb text broken_document
    then inl (Exception "RuntimeError")
    else inr (firstn top_n [(py "storage service", f0_50)])
|}.

(** The same world, with a keyphrase model that finds nothing outside
    the competitor page. *)
Definition quiet_world : World := {|
  lower := lower world;
  requests_get := requests_get world;
  find_all_text := find_all_text world;
  model_encode := model_encode world;
  model_similarity := model_similarity world;
  kw_model_extract_keywords text top_n :=
    if str_eqb text competitor_document
    then kw_model_extract_keywords world text top_n
    else inr []
|}.

Definition fresh_session : session :=
  <["competitor_text" := []]> (<["my_text" := []]> ∅).

Definition fetched_session : session :=
  <["competitor_text" := competitor_document]> (<["my_text" := []]> ∅).

(** A run with nothing stored yet and the analysis button pressed on a
    pasted content. *)
Definition widgets : Widgets := {|
  target_keyword := topic;
  comp_url := [];
  my_url := [];
  fetch_competitor_pressed := false;
  fetch_my_page_pressed := false;
  analyze_btn := true;
  text_area _ := user_document
|}.

Definition broken_session : session :=
  <["competitor_text" := broken_document]> (<["my_text" := []]> ∅).

(** The report of the demo world: two keyphrases of the competitor page
    occur in the user text, one does not. *)
Definition demo_report : GapReport := {|
  gap_comp_kws := [py "cloud storage"; py "encrypted backups"; py "data redundancy"];
  gap_my_kws := [py "storage service"];
  gap_missing := [py "data redundancy"];
  gap_shared := [py "cloud storage"; py "encrypted backups"]
|}.

(** What the interpreter reads for [-0.1]. *)
Definition f_minus_0_10 : float := S754_finite true 7205759403792794 (-56).

(** The demo world with unrelated texts: their similarity is -0.1. *)
Definition cold_world : World := {|
  lower := lower world;
  requests_get := requests_get world;
  find_all_text := find_all_text world;
  model_encode := model_encode world;
  model_similarity a b := inr f_minus_0_10;
  kw_model_extract_keywords := kw_model_extract_keywords world
|}.

(** The demo world with a similarity that fails. *)
Definition failing_world : World := {|
  lower := lower world;
  requests_get := requests_get world;
  find_all_text := find_all_text world;
  model_encode := model_encode world;
  model_similarity a b := inl (Exception "RuntimeError");
  kw_model_extract_keywords := kw_model_extract_keywords world
|}.

(** The demo world with a page of menu items only. *)
Definition menu_world : World := {|
  lower := lower world;
  requests_get := requests_get world;
  find_all_text c := inr [py "Home"; py "  About us  "; py "Blog"];
  model_encode := model_encode world;
  model_similarity := model_similarity world;
  kw_model_extract_keywords := kw_model_extract_keywords world
|}.

(** A run with the competitor button pressed on the URL that answers,
    and the analysis button pressed too. *)
Definition fetch_widgets : Widgets := {|
  target_keyword := topic;
  comp_url := py "https://them.com/blog";
  my_url := [];
  fetch_competitor_pressed := true;
  fetch_my_page_pressed := false;
  analyze_btn := true;
  text_area _ := user_document
|}.

(** The report under the quiet keyphrase model. *)
Definition quiet_report : GapReport := {|
  gap_comp_kws := [py "cloud storage"; py "encrypted backups"; py "data redundancy"];
  gap_my_kws := [];
  gap_missing := [py "data redundancy"];
  gap_shared := [py "cloud storage"; py "encrypted backups"]
|}.

End Demo.

(* ===================================================================== *)
(** ** Substring search *)
(* ===================================================================== *)

Section StrFacts.
Import PyStr.

Lemma startswith_spec (s p : str) :
  startswith s p = true <-> exists post, s = p ++ post.
Proof.
  revert s; induction p as [|c p IH]; intros s; simpl.
  - split; [intros _; exists s; reflexivity | intros _; destruct s; reflexivity].
  - destruct s as [|d s]; simpl.
    + split; [discriminate | intros [post H]; discriminate].
    + rewrite andb_true_iff, N.eqb_eq, IH. split.
      * intros [-> [post ->]]. exists post; reflexivity.
      * intros [post H]. injection H as -> ->. split; [reflexivity | eauto].
Qed.

Lemma contains_spec (hay needle : str) :
  contains hay needle = true <-> occurs_in needle hay.
Proof.
  unfold occurs_in. induction hay as [|d hay IH]; cbn [contains].
  - rewrite orb_false_r, startswith_spec. split.
    + intros [post H]. exists [], post. exact H.
    + intros [pre [post H]]. destruct pre as [|x pre]; [|discriminate].
      exists post. exact H.
  - rewrite orb_true_iff, startswith_spec, IH. split.
    + intros [[post H] | [pre [post H]]].
      * exists [], post. exact H.
      * exists (d :: pre), post. simpl. rewrite H. reflexivity.
    + intros [pre [post H]]. destruct pre as [|x pre].
      * left. exists post. exact H.
      * right. simpl in H. injection H as _ H. exists pre, post. exact H.
Qed.

Lemma contains_false (hay needle : str) :
  contains hay needle = false <-> ~ occurs_in needle hay.
Proof.
  rewrite <- contains_spec. destruct (contains hay needle); split;
    congruence.
Qed.

End StrFacts.

(* ===================================================================== *)
(** ** Comparison of binary64 values *)
(* ===================================================================== *)

Section FloatOrder.
Import PyFloat.

Lemma SFcompare_swap (a b : float) :
  SFcompare b a = option_map CompOpp (SFcompare a b).
Proof.
  destruct a as [sa|sa| |sa ma ea], b as [sb|sb| |sb mb eb]; simpl;
    try destruct sa; try destruct sb; try reflexivity.
  all: rewrite (Z.compare_antisym eb ea);
    destruct (eb ?= ea)%Z; simpl; try reflexivity;
    change (PosDef.Pos.compare_cont Eq mb ma) with (Pos.compare mb ma);
    change (PosDef.Pos.compare_cont Eq ma mb) with (Pos.compare ma mb);
    rewrite (Pos.compare_antisym mb ma);
    destruct (mb ?= ma)%positive; reflexivity.
Qed.

(** [a <= b] excludes [a > b]. *)
Lemma le_not_gt (a b : float) : le a b = true -> gt a b = false.
Proof.
  unfold le, gt, SFleb, SFltb. rewrite (SFcompare_swap a b).
  destruct (SFcompare a b) as [[ | | ]|]; simpl; congruence.
Qed.

(** Below or at [0.40] is not above [0.60]. *)
Lemma le_0_40_not_gt_0_60 (score : float) :
  le score lit_0_40 = true -> gt score lit_0_60 = false.
Proof.
  unfold le, gt, SFleb, SFltb, lit_0_40, lit_0_60.
  destruct score as [s|s| |s m e]; cbn [SFcompare]; try destruct s;
    try (intros _; reflexivity); try (intros H; discriminate H).
  destruct (e ?= -54)%Z eqn:He.
  - apply Z.compare_eq in He. subst e. intros _. reflexivity.
  - rewrite Z.compare_lt_iff in He.
    assert (H : (-53 ?= e)%Z = Gt) by (apply Z.compare_gt_iff; lia).
    rewrite H. intros _. reflexivity.
  - intros H. discriminate H.
Qed.

(** The two literals are the binary64 values nearest to 6/10 and 4/10: a
    53-bit mantissa, and an error of at most half a unit in the last
    place. *)
Lemma literals_nearest :
  (2 ^ 52 <= 5404319552844595 < 2 ^ 53 /\
   Z.abs (10 * 5404319552844595 - 6 * 2 ^ 53) <= 5 /\
   2 ^ 52 <= 7205759403792794 < 2 ^ 53 /\
   Z.abs (10 * 7205759403792794 - 4 * 2 ^ 54) <= 5)%Z.
Proof. vm_compute. intuition congruence. Qed.

End FloatOrder.

(* ===================================================================== *)
(** ** The banding policy *)
(* ===================================================================== *)

Section Banding.
Import PyFloat App.

(** The comparison chain alone, on every score: above 0.60 the band is
    Strong; above 0.40 and at most 0.60 it is Moderate; at most 0.40 it is
    Low. A score equal to 0.60 is Moderate and a score equal to 0.40 is
    Low; the command-line round prints the feedback of the same branch. *)
Lemma band_of_score (score : float) :
  (gt score lit_0_60 = true -> band score = Strong) /\
  (gt score lit_0_40 = true -> le score lit_0_60 = true ->
   band score = Moderate) /\
  (le score lit_0_40 = true -> band score = Low) /\
  band lit_0_60 = Moderate /\
  band lit_0_40 = Low /\
  Scorer.feedback score =
    match band score with
    | Strong => Runtime.print "✅ EXCELLENT: Highly relevant context."
    | Moderate =>
        Runtime.print "⚠️  OKAY: Somewhat relevant, but could be tighter."
    | Low =>
        Runtime.print "❌ POOR: The text drifts away from the keyword topic."
    end.
Proof.
  unfold band, Scorer.feedback. repeat split.
  - intros ->. reflexivity.
  - intros H40 H60. rewrite (le_not_gt _ _ H60), H40. reflexivity.
  - intros H40.
    rewrite (le_0_40_not_gt_0_60 _ H40), (le_not_gt _ _ H40). reflexivity.
  - destruct (gt score lit_0_60); [reflexivity|].
    destruct (gt score lit_0_40); reflexivity.
Qed.

(** The boundary tests of the specification, on the values the
    interpreter reads for the four literals. *)
Example band_boundaries :
  band lit_0_6001 = Strong /\ band lit_0_4001 = Moderate /\
  band lit_0_60 = Moderate /\ band lit_0_40 = Low.
Proof.
  split; [|split].
  - apply (proj1 (band_of_score lit_0_6001)). reflexivity.
  - apply (proj1 (proj2 (band_of_score lit_0_4001))); reflexivity.
  - exact (conj (proj1 (proj2 (proj2 (proj2 (band_of_score lit_0_60)))))
                (proj1 (proj2 (proj2 (proj2 (proj2 (band_of_score lit_0_40))))))).
Qed.

End Banding.

(* ===================================================================== *)
(** ** Running blocks of script *)
(* ===================================================================== *)

(** Unfolds the sequencing of a block whose steps are known. *)
Ltac io_red :=
  cbv beta iota zeta delta
      [mbind mret Runtime.io_mbind Runtime.io_mret Runtime.io_bind
       Runtime.io_ret Runtime.call Runtime.emit Runtime.lift Runtime.raise
       Runtime.st_rerun Runtime.session_get Runtime.session_set
       Runtime.session_lacks Runtime.try_except
       Runtime.log Runtime.final Runtime.res negb PyStr.truthy orb];
  cbn [app].

Section Running.
Import PyStr PyFloat Runtime App.

Lemma markdown_each_run (kws : list str) (s : session) :
  markdown_each kws s = mkRun (List.map st_markdown_kw kws) s (Returned tt).
Proof.
  induction kws as [|kw kws IH]; [reflexivity|].
  change (markdown_each (kw :: kws))
    with (emit (st_markdown_kw kw);; markdown_each kws).
  io_red. rewrite IH. reflexivity.
Qed.

Lemma extract_keywords_run (W : World) (text : str) (top_n : nat) (s : session) :
  extract_keywords W text top_n s =
  match text with
  | [] => mkRun [] s (Returned [])
  | _ :: _ =>
      mkRun [call_extract_keywords text top_n] s
            (outcome (kw_model_extract_keywords W text top_n))
  end.
Proof.
  unfold extract_keywords. destruct text as [|c text]; io_red; [reflexivity|].
  destruct (kw_model_extract_keywords W (c :: text) top_n); reflexivity.
Qed.

(** The gap analysis, step by step: the competitor text is extracted,
    then the user text; an exception of either call leaves the block; when
    both return the two lists are filtered from the competitor keyphrases
    and shown. *)
Lemma gap_analysis_run (W : World) (competitor_text my_content_final : str)
      (s : session) :
  gap_analysis W competitor_text my_content_final s =
  let r1 := extract_keywords W competitor_text 25 s in
  match res r1 with
  | Returned comp =>
      let r2 := extract_keywords W my_content_final 25 s in
      match res r2 with
      | Returned mine =>
          let comp_kws := List.map fst comp in
          let missing := missing_kws W comp_kws my_content_final in
          let shared_kws := shared W comp_kws my_content_final in
          mkRun (log r1 ++ log r2 ++ gap_rendering missing shared_kws) s
                (Returned {| gap_comp_kws := comp_kws;
                             gap_my_kws := List.map fst mine;
                             gap_missing := missing;
                             gap_shared := shared_kws |})
      | Raised e => mkRun (log r1 ++ log r2) s (Raised e)
      | Rerun => mkRun (log r1 ++ log r2) s Rerun
      end
  | Raised e => mkRun (log r1) s (Raised e)
  | Rerun => mkRun (log r1) s Rerun
  end.
Proof.
  unfold gap_analysis. io_red. rewrite !extract_keywords_run.
  destruct competitor_text as [|c ct];
    [|destruct (kw_model_extract_keywords W (c :: ct) 25) as [e|comp]];
    cbn [log final res outcome]; try reflexivity.
  all: destruct my_content_final as [|d dt];
    [|destruct (kw_model_extract_keywords W (d :: dt) 25) as [e|mine]];
    cbn [log final res outcome app]; try reflexivity.
  all: unfold gap_rendering.
  all: match goal with
       | |- context [truthy ?m] => destruct m eqn:Hm
       end; cbn [truthy]; io_red; try reflexivity.
  all: rewrite markdown_each_run; cbn [log final res app]; reflexivity.
Qed.

End Running.

(* ===================================================================== *)
(** ** The gap analysis *)
(* ===================================================================== *)

Section Filtering.
Context {A : Type} (p : A -> bool).




End Filtering.

Section Gap.
Import PyStr PyFloat Runtime App.
Context (W : World).

Lemma shared_In (comp_kws : list str) (doc k : str) :
  In k (shared W comp_kws doc) <->
  In k comp_kws /\ occurs_in (lower W k) (lower W doc).
Proof.
  unfold shared. rewrite List.filter_In, contains_spec. reflexivity.
Qed.

Lemma missing_In (comp_kws : list str) (doc k : str) :
  In k (missing_kws W comp_kws doc) <->
  In k comp_kws /\ ~ occurs_in (lower W k) (lower W doc).
Proof.
  unfold missing_kws.
  rewrite List.filter_In, negb_true_iff, contains_false. reflexivity.
Qed.

(** A gap analysis that returns has extracted keyphrases for both texts
    and filtered its two lists from those of the competitor text. *)
Lemma gap_analysis_returned (competitor_text my_content_final : str)
      (s : session) (g : GapReport) :
  res (gap_analysis W competitor_text my_content_final s) = Returned g ->
  exists comp mine,
    res (extract_keywords W competitor_text 25 s) = Returned comp /\
    res (extract_keywords W my_content_final 25 s) = Returned mine /\
    g = {| gap_comp_kws := List.map fst comp;
           gap_my_kws := List.map fst mine;
           gap_missing := missing_kws W (List.map fst comp) my_content_final;
           gap_shared := shared W (List.map fst comp) my_content_final |}.
Proof.
  rewrite gap_analysis_run. cbv zeta.
  destruct (res (extract_keywords W competitor_text 25 s)) as [comp|e|];
    cbn [res]; try discriminate.
  destruct (res (extract_keywords W my_content_final 25 s)) as [mine|e|];
    cbn [res]; try discriminate.
  intros [= <-]. exists comp, mine. repeat split.
Qed.

(** C1. Whenever the gap analysis returns, each competitor keyphrase [k]
    is in [shared] exactly when the lowercased [k] occurs literally in the
    lowercased user text, and in [missing_kws] exactly when it does not. *)
Theorem gap_classification (competitor_text my_content_final : str)
        (s : session) (g : GapReport) (k : str) :
  res (gap_analysis W competitor_text my_content_final s) = Returned g ->
  In k (gap_comp_kws g) ->
  (In k (gap_shared g) <->
   occurs_in (lower W k) (lower W my_content_final)) /\
  (In k (gap_missing g) <->
   ~ occurs_in (lower W k) (lower W my_content_final)).
Proof.
  intros Hrun Hk.
  destruct (gap_analysis_returned _ _ _ _ Hrun) as (comp & mine & _ & _ & ->).
  cbn [gap_comp_kws gap_shared gap_missing] in *.
  rewrite shared_In, missing_In. tauto.
Qed.


End Gap.

Section GapExamples.
Import PyStr PyFloat Runtime App Demo.

Lemma demo_gap_analysis :
  res (gap_analysis world competitor_document user_document fresh_session)
  = Returned demo_report.
Proof. vm_compute. reflexivity. Qed.

Lemma gap_classification_witness :
  (In (py "data redundancy") (gap_shared demo_report) <->
   occurs_in (lower world (py "data redundancy")) (lower world user_document)) /\
  (In (py "data redundancy") (gap_missing demo_report) <->
   ~ occurs_in (lower world (py "data redundancy")) (lower world user_document)).
Proof.
  apply (gap_classification world competitor_document user_document
                            fresh_session demo_report (py "data redundancy")).
  - vm_compute. reflexivity.
  - vm_compute. right. right. left. reflexivity.
Defined.


End GapExamples.

(* ===================================================================== *)
(** ** The analysis block *)
(* ===================================================================== *)

Section Analysis.
Import PyStr PyFloat Runtime App.
Context (W : World).

Lemma gap_analysis_final (competitor_text my_content_final : str) (s : session) :
  final (gap_analysis W competitor_text my_content_final s) = s.
Proof.
  rewrite gap_analysis_run. cbv zeta.
  destruct (res (extract_keywords W competitor_text 25 s)); try reflexivity.
  destruct (res (extract_keywords W my_content_final 25 s)); reflexivity.
Qed.

(** An empty keyword stops the block at the first warning. *)
Lemma analyze_no_keyword (my_content_final : str) (s : session) :
  analyze W [] my_content_final s =
  mkRun [invalid_message TargetKeyword] s (Returned (InvalidInput TargetKeyword)).
Proof. reflexivity. Qed.

(** A content of fewer than 50 characters once stripped stops it at the
    second one. *)
Lemma analyze_short_content (target_keyword my_content_final : str) (s : session) :
  target_keyword <> [] ->
  length (strip my_content_final) < 50 ->
  analyze W target_keyword my_content_final s =
  mkRun [invalid_message MyPageContent] s (Returned (InvalidInput MyPageContent)).
Proof.
  intros Ht Hd. unfold analyze.
  destruct target_keyword as [|c t]; [congruence|].
  apply Nat.ltb_lt in Hd. rewrite Hd, orb_true_r. reflexivity.
Qed.

(** With both inputs accepted, the block scores and shows the score; when
    the progress bar takes it, the block shows the band and goes on to the
    gap analysis when a competitor text is stored. *)
Lemma analyze_accepted (target_keyword my_content_final : str) (s : session) :
  target_keyword <> [] ->
  50 <= length (strip my_content_final) ->
  analyze W target_keyword my_content_final s =
  match model_encode W target_keyword with
  | inl e => mkRun [call_encode target_keyword] s (Raised e)
  | inr emb_kw =>
  match model_encode W my_content_final with
  | inl e =>
      mkRun [call_encode target_keyword; call_encode my_content_final] s (Raised e)
  | inr emb_my =>
  match model_similarity W emb_kw emb_my with
  | inl e =>
      mkRun [call_encode target_keyword; call_encode my_content_final;
             call_similarity emb_kw emb_my] s (Raised e)
  | inr score =>
      if progress_accepts score then
      let shown :=
        scoring_log target_keyword my_content_final emb_kw emb_my score in
      let relevance := {| rel_score := score; rel_band := band score |} in
      match s !! "competitor_text"%string with
      | None => mkRun shown s (Raised (KeyError "competitor_text"))
      | Some [] =>
          mkRun (shown ++
                 [st_info "💡 Tip: Fetch a Competitor URL to see Gap Analysis."])
                s (Returned (AuditReport relevance None))
      | Some (c :: ct) =>
          let r := gap_analysis W (c :: ct) my_content_final s in
          mkRun (shown ++ log r) s
                (match res r with
                 | Returned g => Returned (AuditReport relevance (Some g))
                 | Raised e => Raised e
                 | Rerun => Rerun
                 end)
      end
      else
        mkRun (metric_log target_keyword my_content_final emb_kw emb_my score)
              s (Raised (Exception "StreamlitAPIException"))
  end end end.
Proof.
  intros Ht Hd. unfold analyze.
  destruct target_keyword as [|c t]; [congruence|].
  assert (Hlen : (length (strip my_content_final) <? 50) = false)
    by (apply Nat.ltb_ge; exact Hd).
  assert (Hne : my_content_final <> []).
  { intros ->. cbn in Hd. lia. }
  destruct my_content_final as [|d dt]; [congruence|].
  rewrite Hlen. io_red.
  destruct (model_encode W (c :: t)) as [e|emb_kw]; [reflexivity|].
  destruct (model_encode W (d :: dt)) as [e|emb_my]; [reflexivity|].
  destruct (model_similarity W emb_kw emb_my) as [e|score]; [reflexivity|].
  unfold show_progress.
  destruct (progress_accepts score); [|reflexivity].
  io_red. unfold scoring_log.
  destruct (s !! "competitor_text"%string) as [[|x ct]|]; try reflexivity.
  pose proof (gap_analysis_final (x :: ct) (d :: dt) s) as Hf.
  destruct (gap_analysis W (x :: ct) (d :: dt) s) as [l f r].
  cbn [final] in Hf. subst f. cbn [log res final].
  destruct r; rewrite ?app_nil_r; reflexivity.
Qed.

(** The rendering of the gap analysis makes no call and shows no score. *)
Lemma calls_gap_rendering (missing shared_kws : list str) :
  calls (gap_rendering missing shared_kws) = [] /\
  shown_scores (gap_rendering missing shared_kws) = [].
Proof.
  unfold gap_rendering, calls, shown_scores. cbn [List.filter flat_map is_call app].
  rewrite List.filter_app, flat_map_app.
  assert (Hm : List.filter is_call (List.map st_markdown_kw missing) = [] /\
               flat_map (fun e => match e with st_metric x => [x] | _ => [] end)
                        (List.map st_markdown_kw missing) = []).
  { induction missing as [|kw l [IH1 IH2]]; [split; reflexivity|].
    cbn [List.map List.filter flat_map is_call app]. split; assumption. }
  destruct Hm as [Hm1 Hm2].
  destruct missing; cbn [truthy]; [split; reflexivity|].
  rewrite Hm1, Hm2. split; reflexivity.
Qed.

(** The gap analysis does not read the session state. *)
Lemma gap_analysis_session (competitor_text my_content_final : str)
      (s s' : session) :
  log (gap_analysis W competitor_text my_content_final s)
  = log (gap_analysis W competitor_text my_content_final s') /\
  res (gap_analysis W competitor_text my_content_final s)
  = res (gap_analysis W competitor_text my_content_final s').
Proof.
  rewrite !gap_analysis_run, !extract_keywords_run.
  destruct competitor_text as [|c ct]; destruct my_content_final as [|d dt];
    cbv zeta; cbn [log res];
    repeat match goal with
           | |- context [outcome ?r] => destruct r; cbn [outcome log res]
           end;
    split; reflexivity.
Qed.

Lemma gap_analysis_scores (competitor_text my_content_final : str) (s : session) :
  shown_scores (log (gap_analysis W competitor_text my_content_final s)) = [].
Proof.
  rewrite gap_analysis_run, !extract_keywords_run.
  destruct competitor_text as [|c ct]; destruct my_content_final as [|d dt];
    cbv zeta; cbn [log res];
    repeat match goal with
           | |- context [outcome ?r] => destruct r; cbn [outcome log res]
           end;
    try reflexivity;
    unfold shown_scores; cbn [flat_map app];
    apply (proj2 (calls_gap_rendering _ _)).
Qed.

End Analysis.

(* ===================================================================== *)
(** ** A run of the whole script *)
(* ===================================================================== *)

Section Script.
Import PyStr PyFloat Runtime App.
Context (W : World).

(** The analysis block leaves the session state as it found it. *)
Lemma analyze_final (target_keyword my_content_final : str) (s : session) :
  final (analyze W target_keyword my_content_final s) = s.
Proof.
  destruct target_keyword as [|c t]; [reflexivity|].
  destruct (Nat.lt_ge_cases (length (strip my_content_final)) 50) as [H|H].
  - rewrite (analyze_short_content W (c :: t) _ s); [reflexivity|congruence|exact H].
  - rewrite (analyze_accepted W (c :: t) _ s); [|congruence|exact H].
    destruct (model_encode W (c :: t)); [reflexivity|].
    destruct (model_encode W my_content_final); [reflexivity|].
    destruct (model_similarity W _ _) as [e|score]; [reflexivity|].
    destruct (progress_accepts score); [|reflexivity].
    cbv zeta. destruct (s !! "competitor_text"%string) as [[|x ct]|]; reflexivity.
Qed.

Lemma init_session_state_run (s : session) :
  init_session_state s = mkRun [] (init_state s) (Returned tt).
Proof.
  unfold init_session_state, init_key, init_state. io_red.
  destruct (s !! "my_text"%string); io_red.
  - destruct (s !! "competitor_text"%string); reflexivity.
  - destruct (<["my_text"%string := []]> s !! "competitor_text"%string); reflexivity.
Qed.

(** Both keys are present afterwards; a key that was missing holds the
    empty string. *)
Lemma init_state_lookup (s : session) :
  init_state s !! "competitor_text"%string
    = Some (default [] (s !! "competitor_text"%string)) /\
  init_state s !! "my_text"%string
    = Some (default [] (s !! "my_text"%string)).
Proof.
  unfold init_state.
  destruct (s !! "my_text"%string) as [m|] eqn:Hm;
    destruct (s !! "competitor_text"%string) as [c|] eqn:Hc;
    repeat (rewrite lookup_insert_eq
            || (rewrite lookup_insert_ne by done)
            || rewrite Hc || rewrite Hm);
    split; reflexivity.
Qed.

Lemma preview_run (key : string) (text : str) (s : session) :
  s !! key = Some text ->
  preview key s = mkRun (preview_log text) s (Returned tt).
Proof.
  intros H. unfold preview, preview_log. io_red. rewrite H.
  destruct text; reflexivity.
Qed.

(** A run in which the analysis button is the pressed one: the keys are
    initialised, the stored texts are previewed, and the block runs on the
    content of the text area. *)
Lemma script_analysis (w : Widgets) (s : session) :
  fetch_competitor_pressed w = false ->
  fetch_my_page_pressed w = false ->
  analyze_btn w = true ->
  let my_text := default [] (s !! "my_text"%string) in
  let r := analyze W (target_keyword w) (text_area w my_text) (init_state s) in
  script W w s =
  mkRun (preview_log (default [] (s !! "competitor_text"%string))
         ++ preview_log my_text ++ log r)
        (init_state s)
        (match res r with
         | Returned o => Returned (Some o)
         | Raised e => Raised e
         | Rerun => Rerun
         end).
Proof.
  intros Hfc Hfm Ha. cbv zeta.
  destruct (init_state_lookup s) as [Hc Hm].
  unfold script. rewrite Hfc, Hfm, Ha.
  pose proof (preview_run _ _ _ Hc) as Hpc.
  pose proof (preview_run _ _ _ Hm) as Hpm.
  pose proof (analyze_final (target_keyword w)
                (text_area w (default [] (s !! "my_text"%string)))
                (init_state s)) as Hf.
  io_red. rewrite init_session_state_run. io_red.
  rewrite Hpc. io_red. rewrite Hpm. io_red. rewrite Hm.
  destruct (analyze W _ _ (init_state s)) as [l f r].
  cbn [final] in Hf. subst f. cbn [log res final].
  destruct r; rewrite ?app_nil_r; reflexivity.
Qed.

End Script.

(* ===================================================================== *)
(** ** Properties of the audit *)
(* ===================================================================== *)

Section AuditProperties.
Import PyStr PyFloat Runtime App.
Context (W : World).

(** A rejected input: the block shows the warning of the field and ends. *)
Lemma analyze_rejected (target_keyword my_content_final : str) (s : session) :
  target_keyword = [] \/ length (strip my_content_final) < 50 ->
  exists field,
    analyze W target_keyword my_content_final s
    = mkRun [invalid_message field] s (Returned (InvalidInput field)) /\
    (target_keyword = [] -> field = TargetKeyword) /\
    (target_keyword <> [] -> field = MyPageContent).
Proof.
  intros H.
  destruct target_keyword as [|c t].
  - exists TargetKeyword. rewrite analyze_no_keyword.
    repeat split; congruence.
  - destruct H as [H|H]; [discriminate|].
    exists MyPageContent.
    rewrite (analyze_short_content W (c :: t) my_content_final s);
      [|congruence|exact H].
    repeat split; congruence.
Qed.

(** C5, amended. In [app.py], with an empty keyword, or a content shorter
    than 50 characters once stripped, the block shows the warning naming
    the rejected field and ends there, whatever the other inputs and the
    models are: its log holds the warning alone, so neither the embedding
    model nor the keyphrase model is called. In [relevance_scorer.py] an
    empty keyword ends the loop and an empty text goes back to its start,
    both without a call to the model; there is no minimum length there: with
    a non-empty text, however short, the round goes on to the model, and
    when the three model calls return it prints the score and its
    feedback. *)
Theorem invalid_input_rejected (target_keyword my_content_final : str)
        (lines : list str) (s : session) :
  (target_keyword = [] \/ length (strip my_content_final) < 50 ->
   exists field,
     analyze W target_keyword my_content_final s
     = mkRun [invalid_message field] s (Returned (InvalidInput field)) /\
     calls (log (analyze W target_keyword my_content_final s)) = [] /\
     (target_keyword = [] -> field = TargetKeyword) /\
     (target_keyword <> [] -> field = MyPageContent)) /\
  (target_keyword = [] ->
   Scorer.round W target_keyword lines s
   = mkRun [] s (Returned Scorer.Break)) /\
  (target_keyword <> [] -> join [10%N] lines = [] ->
   Scorer.round W target_keyword lines s
   = mkRun [] s (Returned Scorer.Continue)) /\
  (target_keyword <> [] -> join [10%N] lines <> [] ->
   (exists rest,
      log (Scorer.round W target_keyword lines s)
      = call_encode target_keyword :: rest) /\
   (forall keyword_emb content_emb score,
      model_encode W target_keyword = inr keyword_emb ->
      model_encode W (join [10%N] lines) = inr content_emb ->
      model_similarity W keyword_emb content_emb = inr score ->
      Scorer.round W target_keyword lines s
      = mkRun [call_encode target_keyword; call_encode (join [10%N] lines);
               call_similarity keyword_emb content_emb; print_score score;
               Scorer.feedback score] s (Returned Scorer.Continue))).
Proof.
  split; [|split; [|split]].
  - intros H.
    destruct (analyze_rejected target_keyword my_content_final s H)
      as (field & Hrun & Hk & Hc).
    exists field. rewrite Hrun. cbn [log].
    split; [reflexivity|split; [destruct field; reflexivity|split; assumption]].
  - intros ->. reflexivity.
  - intros Ht Hl. unfold Scorer.round. rewrite Hl.
    destruct target_keyword; [congruence|reflexivity].
  - intros Ht Hl. unfold Scorer.round.
    destruct target_keyword as [|c t]; [congruence|].
    destruct (join [10%N] lines) as [|x content]; [congruence|].
    io_red. split.
    + destruct (model_encode W (c :: t)); [eexists; reflexivity|].
      destruct (model_encode W (x :: content)); [eexists; reflexivity|].
      destruct (model_similarity W _ _); eexists; reflexivity.
    + intros keyword_emb content_emb score H1 H2 H3.
      rewrite H1. io_red. rewrite H2. io_red. rewrite H3. reflexivity.
Qed.

(** With an empty competitor text stored, the block never returns a
    report carrying the lists of a gap analysis and never calls the
    keyphrase model; when the inputs are accepted and the three model
    calls return, it shows the score, and when the progress bar takes the
    score it returns it with its band and without gap lists. *)
Lemma analyze_no_competitor (target_keyword my_content_final : str)
      (s : session) :
  s !! "competitor_text"%string = Some [] ->
  (forall relevance g,
     res (analyze W target_keyword my_content_final s)
     <> Returned (AuditReport relevance (Some g))) /\
  (forall text top_n,
     ~ In (call_extract_keywords text top_n)
          (log (analyze W target_keyword my_content_final s))) /\
  (forall emb_kw emb_my score,
     target_keyword <> [] ->
     50 <= length (strip my_content_final) ->
     model_encode W target_keyword = inr emb_kw ->
     model_encode W my_content_final = inr emb_my ->
     model_similarity W emb_kw emb_my = inr score ->
     In (st_metric score) (log (analyze W target_keyword my_content_final s)) /\
     (progress_accepts score = true ->
      analyze W target_keyword my_content_final s
      = mkRun (scoring_log target_keyword my_content_final emb_kw emb_my score
               ++ [st_info "💡 Tip: Fetch a Competitor URL to see Gap Analysis."])
              s
              (Returned (AuditReport {| rel_score := score;
                                        rel_band := band score |} None)))).
Proof.
  intros Hc.
  assert (Hcases :
    target_keyword = [] \/ length (strip my_content_final) < 50 \/
    (target_keyword <> [] /\ 50 <= length (strip my_content_final))).
  { destruct target_keyword; [left; reflexivity|].
    destruct (Nat.lt_ge_cases (length (strip my_content_final)) 50);
      [right; left; assumption | right; right; split; [congruence|assumption]]. }
  split; [|split].
  - intros relevance g.
    destruct Hcases as [H|[H|[Ht Hd]]].
    + destruct (analyze_rejected _ my_content_final s (or_introl H))
        as (f & -> & _). cbn [res]. congruence.
    + destruct (analyze_rejected target_keyword _ s (or_intror H))
        as (f & -> & _). cbn [res]. congruence.
    + rewrite (analyze_accepted W _ _ s Ht Hd), Hc.
      destruct (model_encode W target_keyword); [cbn; congruence|].
      destruct (model_encode W my_content_final); [cbn; congruence|].
      destruct (model_similarity W _ _) as [e|score]; [cbn; congruence|].
      destruct (progress_accepts score); cbn; congruence.
  - intros text top_n.
    destruct Hcases as [H|[H|[Ht Hd]]].
    + destruct (analyze_rejected _ my_content_final s (or_introl H))
        as (f & -> & _). destruct f; cbn; intuition congruence.
    + destruct (analyze_rejected target_keyword _ s (or_intror H))
        as (f & -> & _). destruct f; cbn; intuition congruence.
    + rewrite (analyze_accepted W _ _ s Ht Hd), Hc.
      destruct (model_encode W target_keyword); [cbn; intuition congruence|].
      destruct (model_encode W my_content_final); [cbn; intuition congruence|].
      destruct (model_similarity W _ _) as [e|score];
        [cbn; intuition congruence|].
      destruct (progress_accepts score); [|cbn; intuition congruence].
      cbn. destruct (band score); cbn; intuition congruence.
  - intros emb_kw emb_my score Ht Hd H1 H2 H3.
    rewrite (analyze_accepted W _ _ s Ht Hd), H1, H2, H3, Hc.
    split.
    + destruct (progress_accepts score); cbn; tauto.
    + intros ->. reflexivity.
Qed.

(** C6. When the stored competitor text is empty, the analysis block
    returns no gap lists (never a report with [Some] lists, were they
    empty), does not call the keyphrase model, and still computes the
    score: whenever the inputs are accepted and the model calls return,
    the score is shown, and when the progress bar takes it the block
    returns the report of that score and its band with [None] for the gap
    lists. The same holds for a whole run with the analysis button pressed
    when the key of the competitor text is missing from the session state,
    or holds the empty string, at the start of the run. *)
Theorem no_competitor_no_gap_report (target_keyword my_content_final : str)
        (w : Widgets) (s : session) :
  (s !! "competitor_text"%string = Some [] ->
   (forall relevance g,
      res (analyze W target_keyword my_content_final s)
      <> Returned (AuditReport relevance (Some g))) /\
   (forall text top_n,
      ~ In (call_extract_keywords text top_n)
           (log (analyze W target_keyword my_content_final s))) /\
   (forall emb_kw emb_my score,
      target_keyword <> [] ->
      50 <= length (strip my_content_final) ->
      model_encode W target_keyword = inr emb_kw ->
      model_encode W my_content_final = inr emb_my ->
      model_similarity W emb_kw emb_my = inr score ->
      In (st_metric score) (log (analyze W target_keyword my_content_final s)) /\
      (progress_accepts score = true ->
       res (analyze W target_keyword my_content_final s)
       = Returned (AuditReport {| rel_score := score;
                                  rel_band := band score |} None)))) /\
  (default [] (s !! "competitor_text"%string) = [] ->
   fetch_competitor_pressed w = false ->
   fetch_my_page_pressed w = false ->
   analyze_btn w = true ->
   (forall relevance g,
      res (script W w s) <> Returned (Some (AuditReport relevance (Some g)))) /\
   (forall text top_n,
      ~ In (call_extract_keywords text top_n) (log (script W w s))) /\
   (forall emb_kw emb_my score,
      App.target_keyword w <> [] ->
      50 <= length (strip (text_area w (default [] (s !! "my_text"%string)))) ->
      model_encode W (App.target_keyword w) = inr emb_kw ->
      model_encode W (text_area w (default [] (s !! "my_text"%string)))
      = inr emb_my ->
      model_similarity W emb_kw emb_my = inr score ->
      In (st_metric score) (log (script W w s)) /\
      (progress_accepts score = true ->
       res (script W w s)
       = Returned (Some (AuditReport {| rel_score := score;
                                        rel_band := band score |} None))))).
Proof.
  split.
  - intros Hc.
    destruct (analyze_no_competitor target_keyword my_content_final s Hc)
      as (H1 & H2 & H3).
    split; [exact H1|split; [exact H2|]].
    intros emb_kw emb_my score Ht Hd He1 He2 He3.
    destruct (H3 emb_kw emb_my score Ht Hd He1 He2 He3) as [Hin Hrun].
    split; [exact Hin|].
    intros Hp. rewrite (Hrun Hp). reflexivity.
  - intros Hc Hfc Hfm Ha.
    rewrite (script_analysis W w s Hfc Hfm Ha). cbv zeta. cbn [log res].
    destruct (init_state_lookup s) as [Hi _]. rewrite Hc in Hi.
    destruct (analyze_no_competitor (App.target_keyword w)
                (text_area w (default [] (s !! "my_text"%string)))
                (init_state s) Hi) as (H1 & H2 & H3).
    split; [|split].
    + intros relevance g.
      destruct (res (analyze W _ _ (init_state s))) as [o|e|] eqn:Hr;
        [|discriminate|discriminate].
      intros [= ->]. exact (H1 relevance g eq_refl).
    + intros text top_n. rewrite Hc. rewrite !in_app_iff.
      unfold preview_log.
      intros [H|[H|H]].
      * cbn in H. exact H.
      * destruct (truthy _); cbn in H; intuition congruence.
      * exact (H2 text top_n H).
    + intros emb_kw emb_my score Ht Hd He1 He2 He3.
      destruct (H3 emb_kw emb_my score Ht Hd He1 He2 He3) as [Hin Hrun].
      split.
      * rewrite !in_app_iff. right. right. exact Hin.
      * intros Hp. rewrite (Hrun Hp). reflexivity.
Qed.

(** The scores shown by an accepted run whose model calls return. *)
Lemma analyze_scores (target_keyword my_content_final : str) (s : session)
      (emb_kw emb_my : vector) (score : float) :
  target_keyword <> [] ->
  50 <= length (strip my_content_final) ->
  model_encode W target_keyword = inr emb_kw ->
  model_encode W my_content_final = inr emb_my ->
  model_similarity W emb_kw emb_my = inr score ->
  (exists rest,
     log (analyze W target_keyword my_content_final s)
     = metric_log target_keyword my_content_final emb_kw emb_my score ++ rest /\
     shown_scores rest = []) /\
  (forall relevance gap,
     res (analyze W target_keyword my_content_final s)
     = Returned (AuditReport relevance gap) ->
     relevance = {| rel_score := score; rel_band := band score |}).
Proof.
  intros Ht Hd H1 H2 H3.
  rewrite (analyze_accepted W _ _ s Ht Hd), H1, H2, H3.
  destruct (progress_accepts score).
  2: { cbn [log res]. split; [|discriminate].
       exists []. split; [rewrite app_nil_r; reflexivity|reflexivity]. }
  cbv zeta.
  assert (Hband : forall rest,
            shown_scores (st_progress score :: band_message (band score) :: rest)
            = shown_scores rest).
  { intros rest. destruct (band score); reflexivity. }
  unfold scoring_log, metric_log.
  destruct (s !! "competitor_text"%string) as [[|x ct]|]; cbn [log res app].
  - split; [eexists; split; [reflexivity|rewrite Hband; reflexivity]|].
    intros relevance gap [= <- _]. reflexivity.
  - split; [eexists; split;
            [reflexivity|rewrite Hband; apply gap_analysis_scores]|].
    destruct (res (gap_analysis W (x :: ct) my_content_final s));
      try discriminate.
    intros relevance gap [= <- _]. reflexivity.
  - split; [eexists; split; [reflexivity|rewrite Hband; reflexivity]|].
    discriminate.
Qed.

Lemma shown_scores_metric_log (target_keyword my_content_final : str)
      (emb_kw emb_my : vector) (score : float) (rest : list effect) :
  shown_scores
    (metric_log target_keyword my_content_final emb_kw emb_my score ++ rest)
  = score :: shown_scores rest.
Proof. reflexivity. Qed.

(** C7. For a non-empty keyword and an accepted content, when the
    embedding model returns a vector for each and the similarity of the
    two vectors is returned, the score shown and reported is that value as
    it was returned: the log starts with the two encodings, the similarity
    call on their results, and the display of that value; no other score
    is shown; and a report that is returned carries it. The command-line
    round prints the value of the same three calls. *)
Theorem score_is_similarity (target_keyword my_content_final : str)
        (s : session) (emb_kw emb_my : vector) (score : float) :
  target_keyword <> [] ->
  50 <= length (strip my_content_final) ->
  model_encode W target_keyword = inr emb_kw ->
  model_encode W my_content_final = inr emb_my ->
  model_similarity W emb_kw emb_my = inr score ->
  (exists rest,
     log (analyze W target_keyword my_content_final s)
     = [call_encode target_keyword; call_encode my_content_final;
        call_similarity emb_kw emb_my; st_metric score] ++ rest) /\
  shown_scores (log (analyze W target_keyword my_content_final s)) = [score] /\
  (forall relevance gap,
     res (analyze W target_keyword my_content_final s)
     = Returned (AuditReport relevance gap) ->
     rel_score relevance = score) /\
  (forall lines,
     join [10%N] lines = my_content_final ->
     Scorer.round W target_keyword lines s
     = mkRun [call_encode target_keyword; call_encode my_content_final;
              call_similarity emb_kw emb_my; print_score score;
              Scorer.feedback score] s (Returned Scorer.Continue)).
Proof.
  intros Ht Hd H1 H2 H3.
  destruct (analyze_scores _ _ s _ _ _ Ht Hd H1 H2 H3)
    as [(rest & Hlog & Hrest) Hres].
  split; [|split; [|split]].
  - rewrite Hlog. unfold metric_log. eexists. reflexivity.
  - rewrite Hlog, shown_scores_metric_log, Hrest. reflexivity.
  - intros relevance gap Hr. rewrite (Hres relevance gap Hr). reflexivity.
  - intros lines Hl. unfold Scorer.round. rewrite Hl.
    destruct target_keyword as [|c t]; [congruence|].
    destruct my_content_final as [|d dt]; [cbn in Hd; lia|].
    io_red. rewrite H1. io_red. rewrite H2. io_red. rewrite H3. reflexivity.
Qed.

(** The log and the result of the block depend on the session state
    through the stored competitor text only. *)
Lemma analyze_session (target_keyword my_content_final : str) (s s' : session) :
  s !! "competitor_text"%string = s' !! "competitor_text"%string ->
  log (analyze W target_keyword my_content_final s)
  = log (analyze W target_keyword my_content_final s') /\
  res (analyze W target_keyword my_content_final s)
  = res (analyze W target_keyword my_content_final s').
Proof.
  intros Hc.
  destruct target_keyword as [|c t]; [split; reflexivity|].
  destruct (Nat.lt_ge_cases (length (strip my_content_final)) 50) as [H|H].
  - rewrite !(analyze_short_content W (c :: t) my_content_final);
      try congruence; try exact H. split; reflexivity.
  - rewrite !(analyze_accepted W (c :: t) my_content_final);
      try congruence; try exact H.
    rewrite Hc.
    destruct (model_encode W (c :: t)); [split; reflexivity|].
    destruct (model_encode W my_content_final); [split; reflexivity|].
    destruct (model_similarity W _ _) as [e|score]; [split; reflexivity|].
    destruct (progress_accepts score); [|split; reflexivity].
    cbv zeta.
    destruct (s' !! "competitor_text"%string) as [[|x ct]|];
      [split; reflexivity| |split; reflexivity].
    destruct (gap_analysis_session W (x :: ct) my_content_final s s')
      as [Hl Hr].
    cbn [log res]. rewrite Hl, Hr. split; reflexivity.
Qed.

(** The scores shown do not depend on the session state at all. *)
Lemma analyze_scores_session (target_keyword my_content_final : str)
      (s s' : session) :
  shown_scores (log (analyze W target_keyword my_content_final s))
  = shown_scores (log (analyze W target_keyword my_content_final s')).
Proof.
  destruct target_keyword as [|c t]; [reflexivity|].
  destruct (Nat.lt_ge_cases (length (strip my_content_final)) 50) as [H|H].
  - rewrite !(analyze_short_content W (c :: t) my_content_final);
      try congruence; try exact H. reflexivity.
  - destruct (model_encode W (c :: t)) as [e|emb_kw] eqn:H1;
      [|destruct (model_encode W my_content_final) as [e|emb_my] eqn:H2;
        [|destruct (model_similarity W emb_kw emb_my) as [e|score] eqn:H3]].
    4: { assert (Ht : c :: t <> []) by congruence.
         destruct (analyze_scores _ _ s _ _ _ Ht H H1 H2 H3)
           as [(rest & -> & Hrest) _].
         destruct (analyze_scores _ _ s' _ _ _ Ht H H1 H2 H3)
           as [(rest' & -> & Hrest') _].
         rewrite !shown_scores_metric_log, Hrest, Hrest'. reflexivity. }
    all: rewrite !(analyze_accepted W (c :: t) my_content_final);
      try congruence; try exact H.
    all: rewrite ?H1, ?H2, ?H3; reflexivity.
Qed.

(** C8. The analysis block leaves the session state untouched, so a
    second run after a first one starts where the first started and does
    and returns the same; two runs with the same keyword, content and
    models, from session states holding the same competitor text, have
    the same log and the same result; and the scores shown are the same
    whatever the session states hold. *)
Theorem audit_deterministic (target_keyword my_content_final : str)
        (s s' : session) :
  final (analyze W target_keyword my_content_final s) = s /\
  analyze W target_keyword my_content_final
          (final (analyze W target_keyword my_content_final s))
  = analyze W target_keyword my_content_final s /\
  (s !! "competitor_text"%string = s' !! "competitor_text"%string ->
   log (analyze W target_keyword my_content_final s)
   = log (analyze W target_keyword my_content_final s') /\
   res (analyze W target_keyword my_content_final s)
   = res (analyze W target_keyword my_content_final s')) /\
  shown_scores (log (analyze W target_keyword my_content_final s))
  = shown_scores (log (analyze W target_keyword my_content_final s')).
Proof.
  split; [|split; [|split]].
  - apply analyze_final.
  - rewrite analyze_final. reflexivity.
  - apply analyze_session.
  - apply analyze_scores_session.
Qed.

End AuditProperties.

(* ===================================================================== *)
(** ** Keyphrase extraction in the gap analysis *)
(* ===================================================================== *)

Section Extraction.
Import PyStr PyFloat Runtime App.

(** C4, as stated, fails: in the demo world the analysis calls the
    keyphrase model on the user text, after the competitor text, and
    binds the keyphrases it returns. *)
Lemma user_keyphrases_are_extracted :
  calls (log (gap_analysis Demo.world Demo.competitor_document
                           Demo.user_document Demo.fetched_session))
  = [call_extract_keywords Demo.competitor_document 25;
     call_extract_keywords Demo.user_document 25] /\
  In (call_extract_keywords Demo.user_document 25)
     (log (analyze Demo.world Demo.topic Demo.user_document
                   Demo.fetched_session)) /\
  exists relevance g,
    res (analyze Demo.world Demo.topic Demo.user_document Demo.fetched_session)
    = Returned (AuditReport relevance (Some g)) /\
    gap_my_kws g = [py "storage service"].
Proof.
  split; [vm_compute; reflexivity|split].
  - vm_compute. do 7 right. left. reflexivity.
  - eexists. eexists. split; vm_compute; reflexivity.
Qed.

(** C4, amended. In the gap analysis of two non-empty texts the keyphrase
    model is called on the competitor text and, when that call returns, on
    the user text too (25 keyphrases each). The keyphrases of the user text
    are not used: the two lists are filtered from the competitor keyphrases
    by containment in the raw user text, and they are the same under a
    keyphrase model that answers differently on the user text. *)
Theorem gap_ignores_user_keyphrases (W W' : World)
        (competitor_text my_content_final : str) (s : session) :
  competitor_text <> [] ->
  my_content_final <> [] ->
  (forall comp,
     kw_model_extract_keywords W competitor_text 25 = inr comp ->
     exists rest,
       log (gap_analysis W competitor_text my_content_final s)
       = [call_extract_keywords competitor_text 25;
          call_extract_keywords my_content_final 25] ++ rest /\
       calls rest = []) /\
  (forall g,
     res (gap_analysis W competitor_text my_content_final s) = Returned g ->
     gap_missing g = missing_kws W (gap_comp_kws g) my_content_final /\
     gap_shared g = shared W (gap_comp_kws g) my_content_final) /\
  (lower W' = lower W ->
   kw_model_extract_keywords W' competitor_text 25
   = kw_model_extract_keywords W competitor_text 25 ->
   forall g g',
     res (gap_analysis W competitor_text my_content_final s) = Returned g ->
     res (gap_analysis W' competitor_text my_content_final s) = Returned g' ->
     gap_comp_kws g' = gap_comp_kws g /\
     gap_missing g' = gap_missing g /\
     gap_shared g' = gap_shared g).
Proof.
  intros Hc Hd.
  destruct competitor_text as [|c ct]; [congruence|].
  destruct my_content_final as [|d dt]; [congruence|].
  split; [|split].
  - intros comp Hcomp.
    rewrite gap_analysis_run, !extract_keywords_run, Hcomp.
    cbv zeta. cbn [log res outcome].
    destruct (kw_model_extract_keywords W (d :: dt) 25) as [e|mine];
      cbn [log res outcome app].
    + exists []. split; reflexivity.
    + eexists. split; [reflexivity|]. apply calls_gap_rendering.
  - intros g Hg.
    destruct (gap_analysis_returned W _ _ _ _ Hg) as (comp & mine & _ & _ & ->).
    split; reflexivity.
  - intros Hlower Hsame g g' Hg Hg'.
    destruct (gap_analysis_returned W _ _ _ _ Hg) as (comp & mine & H1 & _ & ->).
    destruct (gap_analysis_returned W' _ _ _ _ Hg')
      as (comp' & mine' & H1' & _ & ->).
    rewrite extract_keywords_run in H1, H1'. cbn [res] in H1, H1'.
    rewrite Hsame, H1 in H1'. injection H1' as <-.
    cbn [gap_comp_kws gap_missing gap_shared].
    unfold missing_kws, shared. rewrite Hlower. repeat split.
Qed.

Lemma gap_ignores_user_keyphrases_witness :
  gap_comp_kws Demo.quiet_report = gap_comp_kws Demo.demo_report /\
  gap_missing Demo.quiet_report = gap_missing Demo.demo_report /\
  gap_shared Demo.quiet_report = gap_shared Demo.demo_report.
Proof.
  refine (proj2 (proj2 (gap_ignores_user_keyphrases Demo.world Demo.quiet_world
            Demo.competitor_document Demo.user_document Demo.fetched_session
            _ _)) _ _ Demo.demo_report Demo.quiet_report _ _).
  - vm_compute. discriminate.
  - vm_compute. discriminate.
  - reflexivity.
  - vm_compute. reflexivity.
  - vm_compute. reflexivity.
  - vm_compute. reflexivity.
Defined.

End Extraction.

Section ExtractionFailure.
Import PyStr PyFloat Runtime App.

(** C9, as stated, fails: a keyphrase model that raises makes
    [extract_keywords] raise, and the analysis stops there, after the
    score was shown and before any list is. *)
Lemma extractor_failure_propagates :
  res (extract_keywords Demo.world Demo.broken_document 25 Demo.broken_session)
  = Raised (Exception "RuntimeError") /\
  res (analyze Demo.world Demo.topic Demo.user_document Demo.broken_session)
  = Raised (Exception "RuntimeError") /\
  log (analyze Demo.world Demo.topic Demo.user_document Demo.broken_session)
  = scoring_log Demo.topic Demo.user_document
                [Demo.f0_50; Demo.f0_30] [Demo.f0_50; Demo.f0_30] Demo.f0_70
    ++ [call_extract_keywords Demo.broken_document 25].
Proof. repeat split; vm_compute; reflexivity. Qed.

(** C9, amended. On the empty text [extract_keywords] returns the empty
    list without calling the keyphrase model. Whenever the extraction
    gives no keyphrase for the competitor text and returns for the user
    text, the gap analysis returns with empty [missing_kws] and [shared].
    An exception of the keyphrase model on a non-empty text is not caught:
    it leaves [extract_keywords], and the gap analysis with it. *)
Theorem empty_text_no_keyphrases (W : World)
        (competitor_text my_content_final : str) (top_n : nat) (s : session) :
  extract_keywords W [] top_n s = mkRun [] s (Returned []) /\
  (forall mine,
     res (extract_keywords W competitor_text 25 s) = Returned [] ->
     res (extract_keywords W my_content_final 25 s) = Returned mine ->
     res (gap_analysis W competitor_text my_content_final s)
     = Returned {| gap_comp_kws := []; gap_my_kws := List.map fst mine;
                   gap_missing := []; gap_shared := [] |}) /\
  (forall e,
     competitor_text <> [] ->
     kw_model_extract_keywords W competitor_text top_n = inl e ->
     extract_keywords W competitor_text top_n s
     = mkRun [call_extract_keywords competitor_text top_n] s (Raised e)) /\
  (forall e,
     competitor_text <> [] ->
     kw_model_extract_keywords W competitor_text 25 = inl e ->
     gap_analysis W competitor_text my_content_final s
     = mkRun [call_extract_keywords competitor_text 25] s (Raised e)).
Proof.
  split; [reflexivity|split; [|split]].
  - intros mine H1 H2. rewrite gap_analysis_run. cbv zeta.
    rewrite H1, H2. reflexivity.
  - intros e Hne He. rewrite extract_keywords_run.
    destruct competitor_text; [congruence|]. rewrite He. reflexivity.
  - intros e Hne He. rewrite gap_analysis_run, extract_keywords_run.
    destruct competitor_text; [congruence|]. rewrite He. reflexivity.
Qed.

Lemma empty_text_no_keyphrases_witness :
  res (gap_analysis Demo.quiet_world Demo.user_document Demo.user_document
                    Demo.fresh_session)
  = Returned {| gap_comp_kws := []; gap_my_kws := [];
                gap_missing := []; gap_shared := [] |} /\
  extract_keywords Demo.world Demo.broken_document 25 Demo.fresh_session
  = mkRun [call_extract_keywords Demo.broken_document 25] Demo.fresh_session
          (Raised (Exception "RuntimeError")).
Proof.
  split.
  - apply (proj1 (proj2 (empty_text_no_keyphrases Demo.quiet_world
                           Demo.user_document Demo.user_document 25
                           Demo.fresh_session)) []);
      vm_compute; reflexivity.
  - apply (proj1 (proj2 (proj2 (empty_text_no_keyphrases Demo.world
                           Demo.broken_document Demo.user_document 25
                           Demo.fresh_session)))).
    + vm_compute. discriminate.
    + vm_compute. reflexivity.
Defined.

End ExtractionFailure.

(* ===================================================================== *)
(** ** Fetching a page *)
(* ===================================================================== *)

Section Fetching.
Import PyStr PyFloat Runtime App.
Context (W : World).

Lemma status_check (response : Response) :
  ((400 <=? status_code response) && (status_code response <? 600))%N = true
  <-> (400 <= status_code response < 600)%N.
Proof. rewrite andb_true_iff, N.leb_le, N.ltb_lt. reflexivity. Qed.

(** A failure is reported on the page and answered by [None]. *)
Lemma fetch_url_content_failure (url : str) (s : session) (e : exn) :
  fetch_failure W url e ->
  fetch_url_content W url s
  = mkRun [call_requests_get url; st_error_fetching e] s (Returned None).
Proof.
  intros H. unfold fetch_url_content, raise_for_status.
  destruct H as [e H|response H Hs|response e H Hs Hp]; io_red; rewrite H; io_red.
  - reflexivity.
  - apply status_check in Hs. rewrite Hs. reflexivity.
  - destruct ((400 <=? status_code response) && (status_code response <? 600))%N
      eqn:Hb; [apply status_check in Hb; contradiction|].
    io_red. rewrite Hp. reflexivity.
Qed.

(** Otherwise the text of the page is returned. *)
Lemma fetch_url_content_success (url : str) (s : session)
      (response : Response) (text_elements : list str) :
  requests_get W url = inr response ->
  ~ (400 <= status_code response < 600)%N ->
  find_all_text W (content response) = inr text_elements ->
  fetch_url_content W url s
  = mkRun [call_requests_get url] s (Returned (Some (extracted_text text_elements))).
Proof.
  intros H Hs Hp. unfold fetch_url_content, raise_for_status. io_red.
  rewrite H. io_red.
  destruct ((400 <=? status_code response) && (status_code response <? 600))%N
    eqn:Hb; [apply status_check in Hb; contradiction|].
  io_red. rewrite Hp. reflexivity.
Qed.

(** Every fetch is one of the two. *)
Lemma fetch_url_content_cases (url : str) :
  (exists e, fetch_failure W url e) \/
  (exists response text_elements,
     requests_get W url = inr response /\
     ~ (400 <= status_code response < 600)%N /\
     find_all_text W (content response) = inr text_elements).
Proof.
  destruct (requests_get W url) as [e|response] eqn:H.
  - left. exists e. apply request_failed. exact H.
  - destruct ((400 <=? status_code response) && (status_code response <? 600))%N
      eqn:Hb.
    + left. eexists. apply (status_failed W url response H).
      apply status_check. exact Hb.
    + assert (Hs : ~ (400 <= status_code response < 600)%N).
      { intros Hs. apply status_check in Hs. congruence. }
      destruct (find_all_text W (content response)) as [e|elems] eqn:Hp.
      * left. exists e. exact (parse_failed W url response e H Hs Hp).
      * right. exists response, elems. repeat split; assumption.
Qed.

(** [fetch_url_content] returns, with the session state untouched. *)
Lemma fetch_url_content_returns (url : str) (s : session) :
  exists l text,
    fetch_url_content W url s = mkRun l s (Returned text) /\
    (text = None <-> exists e, fetch_failure W url e).
Proof.
  destruct (fetch_url_content_cases url) as [[e He]|(response & elems & H & Hs & Hp)].
  - eexists. exists None. split; [apply fetch_url_content_failure; exact He|].
    split; [intros _; exists e; exact He|reflexivity].
  - eexists. eexists.
    split; [apply (fetch_url_content_success url s response elems H Hs Hp)|].
    split; [discriminate|].
    intros [e He]. destruct He as [e He|r He Hbad|r e He Hok Hparse];
      rewrite H in He; try discriminate; injection He as <-;
      [contradiction|congruence].
Qed.

(** A pressed fetch button stores the text and asks for a rerun when the
    fetch returned a non-empty text, and does nothing else otherwise. *)
Lemma fetch_into_run (key : string) (url : str) (s : session) :
  fetch_into W key url s =
  match url with
  | [] => mkRun [] s (Returned tt)
  | _ :: _ =>
      let r := fetch_url_content W url s in
      match res r with
      | Returned (Some (c :: t)) =>
          mkRun (log r ++ [st_success_fetched (length (c :: t))])
                (<[key := c :: t]> s) Rerun
      | _ => mkRun (log r) s (Returned tt)
      end
  end.
Proof.
  unfold fetch_into. destruct url as [|u url]; [reflexivity|].
  destruct (fetch_url_content_returns (u :: url) s) as (l & text & Hrun & _).
  io_red. rewrite Hrun. cbv zeta. cbn [log res final].
  destruct text as [[|c t]|]; io_red; rewrite ?app_nil_r; reflexivity.
Qed.

(** C10. [fetch_url_content] always returns: a failure of the request, of
    the status check or of the reading of the page is answered by [None].
    When it answers [None] or the empty string, either fetch button leaves
    the session state as it was; when it answers a non-empty text, the
    button stores that text under its own key; and a button that changed
    the session state did so after a fetch that returned a non-empty
    text. *)
Theorem fetch_failure_keeps_session (url : str) (s : session) :
  (exists text,
     res (fetch_url_content W url s) = Returned text /\
     final (fetch_url_content W url s) = s) /\
  (forall e, fetch_failure W url e ->
             res (fetch_url_content W url s) = Returned None) /\
  (res (fetch_url_content W url s) = Returned None \/
   res (fetch_url_content W url s) = Returned (Some []) ->
   final (fetch_competitor W url s) = s /\
   final (fetch_my_page W url s) = s) /\
  (forall text,
     url <> [] -> text <> [] ->
     res (fetch_url_content W url s) = Returned (Some text) ->
     final (fetch_competitor W url s) = <["competitor_text"%string := text]> s /\
     final (fetch_my_page W url s) = <["my_text"%string := text]> s) /\
  (final (fetch_competitor W url s) <> s \/ final (fetch_my_page W url s) <> s ->
   exists text,
     text <> [] /\ res (fetch_url_content W url s) = Returned (Some text)).
Proof.
  unfold fetch_competitor, fetch_my_page. rewrite !fetch_into_run.
  destruct (fetch_url_content_returns url s) as (l & text & Hrun & Hnone).
  rewrite Hrun. cbv zeta. cbn [res final log].
  split; [|split; [|split; [|split]]].
  - exists text. split; reflexivity.
  - intros e He. f_equal. apply Hnone. exists e. exact He.
  - intros [[= ->]|[= ->]]; destruct url; split; reflexivity.
  - intros text' Hu Ht [= ->].
    destruct url as [|u url]; [congruence|].
    destruct text' as [|c t]; [congruence|]. split; reflexivity.
  - intros Hchanged.
    destruct url as [|u url]; [cbn in Hchanged; tauto|].
    destruct text as [[|c t]|]; cbn [final] in Hchanged; try tauto.
    exists (c :: t). split; [discriminate|reflexivity].
Qed.

End Fetching.

(* ===================================================================== *)
(** ** The properties on the demo world *)
(* ===================================================================== *)

Section Examples.
Import PyStr PyFloat Runtime App Demo.

Lemma invalid_input_rejected_witness :
  (exists field,
     analyze world topic (py "short") fetched_session
     = mkRun [invalid_message field] fetched_session
             (Returned (InvalidInput field)) /\
     calls (log (analyze world topic (py "short") fetched_session)) = [] /\
     (topic = [] -> field = TargetKeyword) /\
     (topic <> [] -> field = MyPageContent)) /\
  Scorer.round world topic [py "short"] fetched_session
  = mkRun [call_encode topic; call_encode (join [10%N] [py "short"]);
           call_similarity [f0_50; f0_30] [f0_50; f0_30]; print_score f0_70;
           Scorer.feedback f0_70] fetched_session (Returned Scorer.Continue).
Proof.
  split.
  - apply (proj1 (invalid_input_rejected world topic (py "short") [py "short"]
                    fetched_session)).
    right. vm_compute. lia.
  - refine (proj2 (proj2 (proj2 (proj2 (invalid_input_rejected world topic
              (py "short") [py "short"] fetched_session))) _ _)
              [f0_50; f0_30] [f0_50; f0_30] f0_70 _ _ _).
    + vm_compute. discriminate.
    + vm_compute. discriminate.
    + reflexivity.
    + reflexivity.
    + reflexivity.
Defined.

Lemma no_competitor_no_gap_report_witness :
  res (analyze world topic user_document fresh_session)
  = Returned (AuditReport {| rel_score := f0_70; rel_band := Strong |} None) /\
  res (script world widgets ∅)
  = Returned (Some (AuditReport {| rel_score := f0_70; rel_band := Strong |}
                                None)).
Proof.
  pose proof (no_competitor_no_gap_report world topic user_document widgets
                fresh_session) as [Hstored _].
  pose proof (no_competitor_no_gap_report world topic user_document widgets ∅)
    as [_ Habsent].
  split.
  - assert (Hc : fresh_session !! "competitor_text"%string = Some [])
      by (vm_compute; reflexivity).
    destruct (Hstored Hc) as (_ & _ & H).
    refine (proj2 (H [f0_50; f0_30] [f0_50; f0_30] f0_70 _ _ _ _ _) _).
    + vm_compute. discriminate.
    + vm_compute. lia.
    + reflexivity.
    + reflexivity.
    + reflexivity.
    + vm_compute. reflexivity.
  - destruct (Habsent eq_refl eq_refl eq_refl eq_refl) as (_ & _ & H).
    refine (proj2 (H [f0_50; f0_30] [f0_50; f0_30] f0_70 _ _ _ _ _) _).
    + vm_compute. discriminate.
    + vm_compute. lia.
    + reflexivity.
    + reflexivity.
    + reflexivity.
    + vm_compute. reflexivity.
Defined.

Lemma score_is_similarity_witness :
  shown_scores (log (analyze world topic user_document fetched_session))
  = [f0_70].
Proof.
  refine (proj1 (proj2 (score_is_similarity world topic user_document
                          fetched_session [f0_50; f0_30] [f0_50; f0_30] f0_70
                          _ _ _ _ _))).
  - vm_compute. discriminate.
  - vm_compute. lia.
  - reflexivity.
  - reflexivity.
  - reflexivity.
Defined.

Lemma audit_deterministic_witness :
  log (analyze world topic user_document fetched_session)
  = log (analyze world topic user_document
                 (<["my_text"%string := user_document]> fetched_session)) /\
  res (analyze world topic user_document fetched_session)
  = res (analyze world topic user_document
                 (<["my_text"%string := user_document]> fetched_session)).
Proof.
  refine (proj1 (proj2 (proj2 (audit_deterministic world topic user_document
            fetched_session
            (<["my_text"%string := user_document]> fetched_session)))) _).
  vm_compute. reflexivity.
Defined.

Lemma fetch_failure_keeps_session_witness :
  final (fetch_competitor world (py "https://them.com/gone") fetched_session)
  = fetched_session /\
  final (fetch_my_page world (py "https://them.com/gone") fetched_session)
  = fetched_session.
Proof.
  refine (proj1 (proj2 (proj2 (fetch_failure_keeps_session world
            (py "https://them.com/gone") fetched_session))) _).
  left. vm_compute. reflexivity.
Defined.

(** The fetch that succeeds stores the page text under the key of the
    button and leaves the other key alone. *)
Example fetch_competitor_stores :
  final (fetch_competitor world (py "https://them.com/blog") fresh_session)
  = fetched_session /\
  res (fetch_competitor world (py "https://them.com/blog") fresh_session) = Rerun.
Proof. split; vm_compute; reflexivity. Qed.

(** C5, as stated, fails on the command-line loop: the text "short" has
    five characters, fewer than 50, and the round sends it to the embedding
    model with its keyword and prints a score and its feedback. *)
Lemma short_text_is_scored :
  length (strip (py "short")) < 50 /\
  Scorer.round world topic [py "short"] fresh_session
  = mkRun [call_encode topic; call_encode (py "short");
           call_similarity [f0_50; f0_30] [f0_50; f0_30];
           print_score f0_70;
           print "✅ EXCELLENT: Highly relevant context."]
          fresh_session (Returned Scorer.Continue).
Proof. split; [vm_compute; lia|vm_compute; reflexivity]. Qed.

(** C3. The band is not assigned for every score in [app.py]. The
    similarity of two unrelated texts can be negative; -0.1 is at most
    0.40, and the command-line round prints the POOR line for it, but the
    analysis block shows the score and ends on the exception of
    [st.progress]: its log holds no band message and it returns nothing. *)
Theorem negative_score_shows_no_band :
  le f_minus_0_10 lit_0_40 = true /\
  analyze cold_world topic user_document fresh_session
  = mkRun [call_encode topic; call_encode user_document;
           call_similarity [f0_50; f0_30] [f0_50; f0_30];
           st_metric f_minus_0_10]
          fresh_session (Raised (Exception "StreamlitAPIException")) /\
  ~ In (st_error "Low relevance. Content may be off-topic.")
       (log (analyze cold_world topic user_document fresh_session)) /\
  Scorer.round cold_world topic [user_document] fresh_session
  = mkRun [call_encode topic; call_encode user_document;
           call_similarity [f0_50; f0_30] [f0_50; f0_30];
           print_score f_minus_0_10;
           print "❌ POOR: The text drifts away from the keyword topic."]
          fresh_session (Returned Scorer.Continue).
Proof.
  split; [vm_compute; reflexivity|].
  assert (Hrun : analyze cold_world topic user_document fresh_session
                 = mkRun [call_encode topic; call_encode user_document;
                          call_similarity [f0_50; f0_30] [f0_50; f0_30];
                          st_metric f_minus_0_10]
                         fresh_session
                         (Raised (Exception "StreamlitAPIException")))
    by (vm_compute; reflexivity).
  split; [exact Hrun|]. split.
  - rewrite Hrun. cbn [log In]. intros H.
    repeat (destruct H as [H|H]; [discriminate H|]). exact H.
  - vm_compute. reflexivity.
Qed.

(** An empty first line ends the loop, an empty text goes back to its
    start; neither reaches the model. *)
Example scorer_round_empty :
  Scorer.round world [] [py "short"] fresh_session
  = mkRun [] fresh_session (Returned Scorer.Break) /\
  Scorer.round world topic [] fresh_session
  = mkRun [] fresh_session (Returned Scorer.Continue).
Proof. split; reflexivity. Qed.

End Examples.

(* ===================================================================== *)
(** ** More on the bands *)
(* ===================================================================== *)

Section BandOrder.
Import PyFloat App.

Ltac compare_cases :=
  repeat match goal with
         | |- context [(?x ?= ?y)%Z] =>
             destruct (Z.compare_spec x y); cbn [CompOpp]
         | |- context [PosDef.Pos.compare_cont Eq ?x ?y] =>
             change (PosDef.Pos.compare_cont Eq x y) with (Pos.compare x y);
             destruct (Pos.compare_spec x y); cbn [CompOpp]
         end.

(** [t < a] and [a <= b] give [t < b]. *)
Lemma lt_le_trans (t a b : float) :
  SFltb t a = true -> SFleb a b = true -> SFltb t b = true.
Proof.
  unfold SFltb, SFleb.
  destruct t as [st|st| |st mt et], a as [sa|sa| |sa ma ea],
           b as [sb|sb| |sb mb eb];
    cbn [SFcompare]; try destruct st; try destruct sa; try destruct sb;
    try (intros _ _; reflexivity); try (intros H; discriminate H);
    try (intros _ H; discriminate H).
  all: compare_cases; subst;
    try (intros _ _; reflexivity); try (intros H; discriminate H);
    try (intros _ H; discriminate H); try lia.
Qed.

(** Two values that are not NaN compare. *)
Lemma SFcompare_defined (a b : float) :
  a <> S754_nan -> b <> S754_nan -> SFcompare a b <> None.
Proof.
  intros Ha Hb. destruct a, b; cbn [SFcompare]; congruence.
Qed.

(** Not above, and comparable, is at most. *)
Lemma not_gt_le (a b : float) :
  gt a b = false -> SFcompare a b <> None -> le a b = true.
Proof.
  unfold gt, le, SFltb, SFleb. rewrite (SFcompare_swap a b).
  destruct (SFcompare a b) as [[ | | ]|]; cbn [option_map CompOpp];
    congruence.
Qed.

(** The branch of the chain read back to the score: it is the first one
    exactly above 0.60, the second one exactly above 0.40 and at most
    0.60, and the last one exactly at most 0.40 or on a NaN, which
    compares false with both thresholds. *)
Lemma band_inversion (score : float) :
  (band score = Strong <-> gt score lit_0_60 = true) /\
  (band score = Moderate <->
   gt score lit_0_40 = true /\ le score lit_0_60 = true) /\
  (band score = Low <-> le score lit_0_40 = true \/ score = S754_nan).
Proof.
  assert (Htotal : forall t, t <> S754_nan ->
            gt score t = false -> score <> S754_nan -> le score t = true).
  { intros t Ht Hgt Hnan. apply not_gt_le; [exact Hgt|].
    apply SFcompare_defined; assumption. }
  assert (H60n : lit_0_60 <> S754_nan) by discriminate.
  assert (H40n : lit_0_40 <> S754_nan) by discriminate.
  assert (Hnan : forall t, gt score t = true -> score <> S754_nan).
  { intros t H ->. unfold gt, SFltb in H. destruct t; discriminate. }
  unfold band. split; [|split].
  - destruct (gt score lit_0_60); [tauto|].
    destruct (gt score lit_0_40); split; congruence.
  - destruct (gt score lit_0_60) eqn:H60.
    + split; [discriminate|]. intros [_ Hle].
      rewrite (le_not_gt _ _ Hle) in H60. discriminate.
    + destruct (gt score lit_0_40) eqn:H40.
      * split; [|reflexivity]. intros _. split; [reflexivity|].
        apply Htotal; [exact H60n|exact H60|]. apply (Hnan _ H40).
      * split; [discriminate|]. intros [H _]. discriminate.
  - destruct (gt score lit_0_60) eqn:H60.
    + split; [discriminate|]. intros [Hle | ->].
      * rewrite (le_0_40_not_gt_0_60 _ Hle) in H60. discriminate.
      * discriminate.
    + destruct (gt score lit_0_40) eqn:H40.
      * split; [discriminate|]. intros [Hle | ->].
        -- rewrite (le_not_gt _ _ Hle) in H40. discriminate.
        -- discriminate.
      * split; [|reflexivity]. intros _.
        destruct score as [s|s| |s m e]; try (right; reflexivity);
          left; apply Htotal; try exact H40n; try exact H40;
          discriminate.
Qed.

(** X1. A score that is at least another one never gets a lower band. *)
Theorem band_monotone (a b : float) :
  le a b = true -> band_rank (band a) <= band_rank (band b).
Proof.
  intros Hab. unfold band.
  destruct (gt a lit_0_60) eqn:Ha60.
  - unfold gt in *. rewrite (lt_le_trans _ _ _ Ha60 Hab). reflexivity.
  - destruct (gt a lit_0_40) eqn:Ha40.
    + unfold gt in *. rewrite (lt_le_trans _ _ _ Ha40 Hab).
      destruct (SFltb lit_0_60 b); cbn; lia.
    + cbn. lia.
Qed.

Lemma band_monotone_witness :
  band_rank (band lit_0_40) <= band_rank (band lit_0_6001).
Proof.
  apply (band_monotone lit_0_40 lit_0_6001). reflexivity.
Defined.

(** X2. What the command-line round prints, read back to the score: the
    EXCELLENT line exactly above 0.60, the OKAY line exactly above 0.40
    and at most 0.60, and the POOR line exactly at most 0.40 or on a NaN,
    which compares false with both thresholds and falls to the [else]. *)
Theorem feedback_inversion (score : float) :
  (Scorer.feedback score
   = Runtime.print "✅ EXCELLENT: Highly relevant context."
   <-> gt score lit_0_60 = true) /\
  (Scorer.feedback score
   = Runtime.print "⚠️  OKAY: Somewhat relevant, but could be tighter."
   <-> gt score lit_0_40 = true /\ le score lit_0_60 = true) /\
  (Scorer.feedback score
   = Runtime.print "❌ POOR: The text drifts away from the keyword topic."
   <-> le score lit_0_40 = true \/ score = S754_nan).
Proof.
  destruct (band_inversion score) as (Hs & Hm & Hl).
  destruct (band_of_score score) as (_ & _ & _ & _ & _ & Hf).
  rewrite Hf. rewrite <- Hs, <- Hm, <- Hl.
  destruct (band score); repeat split; intros H;
    try reflexivity; discriminate H.
Qed.

End BandOrder.

(* ===================================================================== *)
(** ** More on the analysis block *)
(* ===================================================================== *)

Section AnalysisEdges.
Import PyStr PyFloat Runtime App.
Context (W : World).

(** X3. The block ends on an invalid input in the two cases of its
    checks and in no other: with a non-empty keyword and a content of at
    least 50 characters once stripped it never reports an invalid input,
    whatever the models do. The keyword is not stripped. *)
Theorem rejection_exact (target_keyword my_content_final : str) (s : session) :
  (exists field,
     res (analyze W target_keyword my_content_final s)
     = Returned (InvalidInput field)) <->
  (target_keyword = [] \/ length (strip my_content_final) < 50).
Proof.
  split.
  - intros [field Hres].
    destruct target_keyword as [|c t]; [left; reflexivity|].
    destruct (Nat.lt_ge_cases (length (strip my_content_final)) 50) as [H|H];
      [right; exact H|].
    exfalso. revert Hres.
    rewrite (analyze_accepted W (c :: t) my_content_final s);
      [|congruence|exact H].
    destruct (model_encode W (c :: t)); [discriminate|].
    destruct (model_encode W my_content_final); [discriminate|].
    destruct (model_similarity W _ _) as [e|score]; [discriminate|].
    destruct (progress_accepts score); [|discriminate].
    cbv zeta.
    destruct (s !! "competitor_text"%string) as [[|x ct]|]; cbn [res];
      try discriminate.
    destruct (res (gap_analysis W (x :: ct) my_content_final s)); discriminate.
  - intros H.
    destruct (analyze_rejected W target_keyword my_content_final s H)
      as (field & -> & _).
    exists field. reflexivity.
Qed.

(** X4. With accepted inputs, an exception of one of the three model
    calls ends the run with that exception: the later calls are not made,
    no score and no band is shown, and the session state is untouched. *)
Theorem model_failure_ends_run (target_keyword my_content_final : str)
        (s : session) (e : exn) :
  target_keyword <> [] ->
  50 <= length (strip my_content_final) ->
  (model_encode W target_keyword = inl e ->
   analyze W target_keyword my_content_final s
   = mkRun [call_encode target_keyword] s (Raised e)) /\
  (forall emb_kw,
     model_encode W target_keyword = inr emb_kw ->
     model_encode W my_content_final = inl e ->
     analyze W target_keyword my_content_final s
     = mkRun [call_encode target_keyword; call_encode my_content_final]
             s (Raised e)) /\
  (forall emb_kw emb_my,
     model_encode W target_keyword = inr emb_kw ->
     model_encode W my_content_final = inr emb_my ->
     model_similarity W emb_kw emb_my = inl e ->
     analyze W target_keyword my_content_final s
     = mkRun [call_encode target_keyword; call_encode my_content_final;
              call_similarity emb_kw emb_my] s (Raised e)).
Proof.
  intros Ht Hd. rewrite (analyze_accepted W _ _ s Ht Hd).
  split; [|split].
  - intros ->. reflexivity.
  - intros emb_kw -> ->. reflexivity.
  - intros emb_kw emb_my -> -> ->. reflexivity.
Qed.

(** X5. With accepted inputs, a score that the progress bar takes (from
    0.0 to 1.0) and a stored competitor text, the score and its band are
    shown before the keyphrase model is called: when the extraction of the
    competitor text raises, the run ends there; when it returns and the
    extraction of the user text raises, the run ends after both calls. In
    both cases no list is shown. *)
Theorem gap_failure_after_score (target_keyword my_content_final : str)
        (competitor_text : str) (s : session)
        (emb_kw emb_my : vector) (score : float) (e : exn) :
  target_keyword <> [] ->
  50 <= length (strip my_content_final) ->
  model_encode W target_keyword = inr emb_kw ->
  model_encode W my_content_final = inr emb_my ->
  model_similarity W emb_kw emb_my = inr score ->
  progress_accepts score = true ->
  competitor_text <> [] ->
  s !! "competitor_text"%string = Some competitor_text ->
  (kw_model_extract_keywords W competitor_text 25 = inl e ->
   analyze W target_keyword my_content_final s
   = mkRun (scoring_log target_keyword my_content_final emb_kw emb_my score
            ++ [call_extract_keywords competitor_text 25]) s (Raised e)) /\
  (forall comp,
     kw_model_extract_keywords W competitor_text 25 = inr comp ->
     kw_model_extract_keywords W my_content_final 25 = inl e ->
     analyze W target_keyword my_content_final s
     = mkRun (scoring_log target_keyword my_content_final emb_kw emb_my score
              ++ [call_extract_keywords competitor_text 25;
                  call_extract_keywords my_content_final 25]) s (Raised e)).
Proof.
  intros Ht Hd H1 H2 H3 Hp Hc Hs.
  rewrite (analyze_accepted W _ _ s Ht Hd), H1, H2, H3, Hp, Hs. cbv zeta.
  destruct competitor_text as [|x ct]; [congruence|].
  assert (Hne : my_content_final <> []).
  { intros ->. cbn in Hd. lia. }
  destruct my_content_final as [|d dt]; [congruence|].
  rewrite gap_analysis_run, !extract_keywords_run. cbv zeta.
  split.
  - intros ->. reflexivity.
  - intros comp -> ->. reflexivity.
Qed.

End AnalysisEdges.

Section AnalysisEdgesExamples.
Import PyStr PyFloat Runtime App Demo.

Lemma model_failure_ends_run_witness :
  analyze failing_world topic user_document fetched_session
  = mkRun [call_encode topic; call_encode user_document;
           call_similarity [f0_50; f0_30] [f0_50; f0_30]]
          fetched_session (Raised (Exception "RuntimeError")).
Proof.
  refine (proj2 (proj2 (model_failure_ends_run failing_world topic
            user_document fetched_session (Exception "RuntimeError") _ _))
            [f0_50; f0_30] [f0_50; f0_30] _ _ _).
  - vm_compute. discriminate.
  - vm_compute. lia.
  - reflexivity.
  - reflexivity.
  - reflexivity.
Defined.

Lemma gap_failure_after_score_witness :
  analyze world topic user_document broken_session
  = mkRun (scoring_log topic user_document [f0_50; f0_30] [f0_50; f0_30] f0_70
           ++ [call_extract_keywords broken_document 25])
          broken_session (Raised (Exception "RuntimeError")).
Proof.
  refine (proj1 (gap_failure_after_score world topic user_document
            broken_document broken_session [f0_50; f0_30] [f0_50; f0_30]
            f0_70 (Exception "RuntimeError") _ _ _ _ _ _ _ _) _).
  - vm_compute. discriminate.
  - vm_compute. lia.
  - reflexivity.
  - reflexivity.
  - reflexivity.
  - vm_compute. reflexivity.
  - vm_compute. discriminate.
  - vm_compute. reflexivity.
  - vm_compute. reflexivity.
Defined.

End AnalysisEdgesExamples.

(* ===================================================================== *)
(** ** The progress bar and the band shown *)
(* ===================================================================== *)

Section ProgressBar.
Import PyStr PyFloat Runtime App.
Context (W : World).


Lemma progress_accepts_not_nan (score : float) :
  progress_accepts score = true -> score <> S754_nan.
Proof. intros H Hn. subst score. discriminate H. Qed.


(** X21. The band [app.py] shows. With accepted inputs, the three model
    calls returning and a score that the progress bar takes (from 0.0 to
    1.0), the block shows, right after the score and the bar, one message:
    "Strong relevance to the keyword." exactly when the score is above
    0.60, "Moderate relevance. Needs more depth." exactly when it is above
    0.40 and at most 0.60, and "Low relevance. Content may be off-topic."
    exactly when it is at most 0.40. *)
Theorem band_message_shown (target_keyword my_content_final : str)
        (s : session) (emb_kw emb_my : vector) (score : float) :
  target_keyword <> [] ->
  50 <= length (strip my_content_final) ->
  model_encode W target_keyword = inr emb_kw ->
  model_encode W my_content_final = inr emb_my ->
  model_similarity W emb_kw emb_my = inr score ->
  progress_accepts score = true ->
  exists m rest,
    log (analyze W target_keyword my_content_final s)
    = [call_encode target_keyword; call_encode my_content_final;
       call_similarity emb_kw emb_my;
       st_metric score; st_progress score; m] ++ rest /\
    (m = st_success "Strong relevance to the keyword."
     <-> gt score lit_0_60 = true) /\
    (m = st_warning "Moderate relevance. Needs more depth."
     <-> gt score lit_0_40 = true /\ le score lit_0_60 = true) /\
    (m = st_error "Low relevance. Content may be off-topic."
     <-> le score lit_0_40 = true).
Proof.
  intros Ht Hd H1 H2 H3 Hp.
  exists (band_message (band score)).
  assert (Hlog : exists rest,
            log (analyze W target_keyword my_content_final s)
            = scoring_log target_keyword my_content_final emb_kw emb_my score
              ++ rest).
  { rewrite (analyze_accepted W _ _ s Ht Hd), H1, H2, H3, Hp. cbv zeta.
    destruct (s !! "competitor_text"%string) as [[|x ct]|]; cbn [log].
    - eexists. reflexivity.
    - eexists. reflexivity.
    - exists []. rewrite app_nil_r. reflexivity. }
  destruct Hlog as [rest Hlog]. exists rest.
  split; [exact Hlog|].
  destruct (band_inversion score) as (Hs & Hm & Hl).
  rewrite <- Hs, <- Hm.
  assert (Hlow : band score = Low <-> le score lit_0_40 = true).
  { rewrite Hl. split; [|left; assumption].
    intros [H|H]; [exact H|].
    destruct (progress_accepts_not_nan score Hp H). }
  rewrite <- Hlow.
  destruct (band score); cbn [band_message]; repeat split; intros H;
    try reflexivity; discriminate H.
Qed.


End ProgressBar.

Section ProgressBarExamples.
Import PyStr PyFloat Runtime App Demo.

Lemma band_message_shown_witness :
  exists m rest,
    log (analyze world topic user_document fresh_session)
    = [call_encode topic; call_encode user_document;
       call_similarity [f0_50; f0_30] [f0_50; f0_30];
       st_metric f0_70; st_progress f0_70; m] ++ rest /\
    (m = st_success "Strong relevance to the keyword."
     <-> gt f0_70 lit_0_60 = true) /\
    (m = st_warning "Moderate relevance. Needs more depth."
     <-> gt f0_70 lit_0_40 = true /\ le f0_70 lit_0_60 = true) /\
    (m = st_error "Low relevance. Content may be off-topic."
     <-> le f0_70 lit_0_40 = true).
Proof.
  refine (band_message_shown world topic user_document fresh_session
            [f0_50; f0_30] [f0_50; f0_30] f0_70 _ _ _ _ _ _).
  - vm_compute. discriminate.
  - vm_compute. lia.
  - reflexivity.
  - reflexivity.
  - reflexivity.
  - vm_compute. reflexivity.
Defined.


End ProgressBarExamples.

(* ===================================================================== *)
(** ** More on the gap analysis *)
(* ===================================================================== *)

Section GapEdges.
Import PyStr PyFloat Runtime App.
Context (W : World).

Lemma filter_nil_iff {A : Type} (p : A -> bool) (l : list A) :
  List.filter p l = [] <-> (forall x, In x l -> p x = false).
Proof.
  induction l as [|x l IH]; cbn [List.filter].
  - split; [intros _ x []|reflexivity].
  - destruct (p x) eqn:Hx; split.
    + discriminate.
    + intros H. specialize (H x (or_introl eq_refl)). congruence.
    + intros H y [<-|Hy]; [exact Hx|]. apply IH; assumption.
    + intros H. apply IH. intros y Hy. apply H. right. exact Hy.
Qed.

Lemma filter_all {A : Type} (p : A -> bool) (l : list A) :
  (forall x, In x l -> p x = true) -> List.filter p l = l.
Proof.
  induction l as [|x l IH]; cbn [List.filter]; [reflexivity|].
  intros H. rewrite (H x (or_introl eq_refl)). f_equal.
  apply IH. intros y Hy. apply H. right. exact Hy.
Qed.

Lemma filter_sublist_impl {A : Type} (p q : A -> bool) (l : list A) :
  (forall x, In x l -> p x = true -> q x = true) ->
  sublist (List.filter p l) (List.filter q l).
Proof.
  induction l as [|x l IH]; cbn [List.filter]; [constructor|].
  intros H.
  assert (IH' : sublist (List.filter p l) (List.filter q l)).
  { apply IH. intros y Hy. apply H. right. exact Hy. }
  destruct (p x) eqn:Hp.
  - rewrite (H x (or_introl eq_refl) Hp). apply sublist_skip. exact IH'.
  - destruct (q x); [apply sublist_cons|]; exact IH'.
Qed.

(** X6. A gap analysis that returns has an empty [missing_kws] exactly
    when the lowercased user text contains every lowercased competitor
    keyphrase, and then [shared] is the whole competitor list, in its
    order. *)
Theorem no_gap_iff_all_covered (competitor_text my_content_final : str)
        (s : session) (g : GapReport) :
  res (gap_analysis W competitor_text my_content_final s) = Returned g ->
  (gap_missing g = [] <->
   forall k, In k (gap_comp_kws g) ->
             occurs_in (lower W k) (lower W my_content_final)) /\
  (gap_missing g = [] -> gap_shared g = gap_comp_kws g).
Proof.
  intros Hrun.
  destruct (gap_analysis_returned W _ _ _ _ Hrun) as (comp & mine & _ & _ & ->).
  cbn [gap_comp_kws gap_shared gap_missing].
  unfold missing_kws, shared. rewrite filter_nil_iff.
  split; [split|].
  - intros H k Hk. apply contains_spec.
    specialize (H k Hk). apply negb_false_iff in H. exact H.
  - intros H k Hk. apply negb_false_iff, contains_spec, H, Hk.
  - intros H. apply filter_all. intros k Hk.
    specialize (H k Hk). apply negb_false_iff in H. exact H.
Qed.

Lemma bullets_markdown (kws : list str) :
  bullets (List.map st_markdown_kw kws) = kws.
Proof.
  induction kws as [|kw kws IH]; [reflexivity|].
  cbn [List.map bullets flat_map app]. f_equal. exact IH.
Qed.

(** X7. What a gap analysis that returns has put on the page is what it
    computed: the bullets are the missing keyphrases in their order, the
    count in the header is their number, the message that no gap was
    found is shown exactly when there is none, and the line written last
    is the shared keyphrases joined by a comma and a space. *)
Theorem gap_page_shows_lists (competitor_text my_content_final : str)
        (s : session) (g : GapReport) :
  res (gap_analysis W competitor_text my_content_final s) = Returned g ->
  bullets (log (gap_analysis W competitor_text my_content_final s))
  = gap_missing g /\
  In (st_error_missing (length (gap_missing g)))
     (log (gap_analysis W competitor_text my_content_final s)) /\
  (In (st_success "No major semantic gaps found!")
      (log (gap_analysis W competitor_text my_content_final s))
   <-> gap_missing g = []) /\
  (exists before,
     log (gap_analysis W competitor_text my_content_final s)
     = before ++ [st_write (join (py ", ") (gap_shared g))]).
Proof.
  intros Hrun.
  destruct (gap_analysis_returned W _ _ _ _ Hrun)
    as (comp & mine & H1 & H2 & ->).
  cbn [gap_comp_kws gap_shared gap_missing].
  rewrite gap_analysis_run. cbv zeta. rewrite H1, H2. cbn [log].
  rewrite extract_keywords_run in H1. rewrite extract_keywords_run in H2.
  rewrite !extract_keywords_run.
  set (missing := missing_kws W (List.map fst comp) my_content_final).
  set (sh := shared W (List.map fst comp) my_content_final).
  assert (Hb : forall l1 l2,
            (l1 = [] \/ exists t n, l1 = [call_extract_keywords t n]) ->
            (l2 = [] \/ exists t n, l2 = [call_extract_keywords t n]) ->
            bullets (l1 ++ l2 ++ gap_rendering missing sh) = missing /\
            In (st_error_missing (length missing))
               (l1 ++ l2 ++ gap_rendering missing sh) /\
            (In (st_success "No major semantic gaps found!")
                (l1 ++ l2 ++ gap_rendering missing sh) <-> missing = []) /\
            exists before,
              l1 ++ l2 ++ gap_rendering missing sh
              = before ++ [st_write (join (py ", ") sh)]).
  { intros l1 l2 Hl1 Hl2.
    assert (Hbl : forall l, (l = [] \/ exists t n, l = [call_extract_keywords t n]) ->
                            bullets l = [] /\
                            forall x, In x l -> exists t n, x = call_extract_keywords t n).
    { intros l [->|(t & n & ->)]; split; try reflexivity.
      - intros x [].
      - intros x [<-|[]]. eauto. }
    destruct (Hbl l1 Hl1) as [Hb1 Hi1]. destruct (Hbl l2 Hl2) as [Hb2 Hi2].
    unfold bullets in *. rewrite !flat_map_app, Hb1, Hb2. cbn [app].
    unfold gap_rendering. cbn [flat_map app].
    rewrite flat_map_app. fold (bullets (if truthy missing
                                         then List.map st_markdown_kw missing
                                         else [st_success "No major semantic gaps found!"])).
    split; [|split; [|split]].
    - destruct missing as [|m ms]; cbn [truthy]; [reflexivity|].
      rewrite bullets_markdown. cbn. rewrite app_nil_r. reflexivity.
    - rewrite !in_app_iff. right. right. left. reflexivity.
    - rewrite !in_app_iff. split.
      + intros [H|[H|H]].
        * destruct (Hi1 _ H) as (t & n & Heq). discriminate.
        * destruct (Hi2 _ H) as (t & n & Heq). discriminate.
        * destruct H as [H|H]; [discriminate|].
          apply in_app_iff in H.
          destruct missing as [|m ms]; [reflexivity|]. exfalso.
          cbn [truthy] in H. destruct H as [H|H].
          -- apply in_map_iff in H. destruct H as (x & Hx & _). discriminate.
          -- cbn in H. intuition discriminate.
      + intros ->. right. right. cbn. right. left. reflexivity.
    - exists (l1 ++ l2 ++ st_error_missing (length missing)
              :: (if truthy missing then List.map st_markdown_kw missing
                  else [st_success "No major semantic gaps found!"])
              ++ [st_info "SHARED TOPICS"]).
      rewrite <- !app_assoc. cbn [app]. rewrite <- !app_assoc. reflexivity. }
  apply Hb.
  - destruct competitor_text; [left; reflexivity|right; eauto].
  - destruct my_content_final; [left; reflexivity|right; eauto].
Qed.

(** X8. Adding to the user text never loses coverage: when the
    lowercased user text occurs literally in the lowercased new text, the
    keyphrases shared with the old text are shared with the new one, and
    those missing from the new one were missing from the old one, both in
    the competitor order. *)
Theorem more_text_more_shared (comp_kws : list str) (old_text new_text : str) :
  occurs_in (lower W old_text) (lower W new_text) ->
  sublist (shared W comp_kws old_text) (shared W comp_kws new_text) /\
  sublist (missing_kws W comp_kws new_text) (missing_kws W comp_kws old_text).
Proof.
  intros (pre & post & Hnew).
  assert (Hmono : forall k,
            contains (lower W old_text) (lower W k) = true ->
            contains (lower W new_text) (lower W k) = true).
  { intros k Hk. apply contains_spec in Hk. apply contains_spec.
    destruct Hk as (p1 & p2 & Hold). exists (pre ++ p1), (p2 ++ post).
    rewrite Hnew, Hold. rewrite <- !app_assoc. reflexivity. }
  split; apply filter_sublist_impl; intros k _ Hk.
  - apply Hmono. exact Hk.
  - apply negb_true_iff in Hk. apply negb_true_iff.
    destruct (contains (lower W old_text) (lower W k)) eqn:Ho; [|reflexivity].
    rewrite (Hmono k Ho) in Hk. discriminate.
Qed.

End GapEdges.

Section GapEdgesExamples.
Import PyStr PyFloat Runtime App Demo.

Lemma no_gap_iff_all_covered_witness :
  (gap_missing demo_report = [] <->
   forall k, In k (gap_comp_kws demo_report) ->
             occurs_in (lower world k) (lower world user_document)) /\
  (gap_missing demo_report = [] ->
   gap_shared demo_report = gap_comp_kws demo_report).
Proof.
  apply (no_gap_iff_all_covered world competitor_document user_document
           fresh_session demo_report).
  vm_compute. reflexivity.
Defined.

Lemma gap_page_shows_lists_witness :
  bullets (log (gap_analysis world competitor_document user_document
                             fresh_session))
  = gap_missing demo_report.
Proof.
  refine (proj1 (gap_page_shows_lists world competitor_document user_document
                   fresh_session demo_report _)).
  vm_compute. reflexivity.
Defined.

Lemma more_text_more_shared_witness :
  sublist (shared world (gap_comp_kws demo_report) user_document)
          (shared world (gap_comp_kws demo_report)
                  (user_document ++ py " With data redundancy.")) /\
  sublist (missing_kws world (gap_comp_kws demo_report)
                       (user_document ++ py " With data redundancy."))
          (missing_kws world (gap_comp_kws demo_report) user_document).
Proof.
  apply (more_text_more_shared world (gap_comp_kws demo_report) user_document
           (user_document ++ py " With data redundancy.")).
  exists [], (lower world (py " With data redundancy.")).
  vm_compute. reflexivity.
Defined.

End GapEdgesExamples.

(* ===================================================================== *)
(** ** More on the session state, the fetch buttons and a whole run *)
(* ===================================================================== *)

Section SessionEdges.
Import PyStr PyFloat Runtime App.
Context (W : World).

Lemma init_state_stored (s : session) (k : string) (v : str) :
  s !! k = Some v -> init_state s !! k = Some v.
Proof.
  intros H. unfold init_state.
  destruct (s !! "my_text"%string) as [m|] eqn:Hm.
  - destruct (s !! "competitor_text"%string) as [c|] eqn:Hc; [exact H|].
    rewrite lookup_insert_ne; [exact H|]. intros <-. congruence.
  - assert (Hk : k <> "my_text"%string) by (intros ->; congruence).
    destruct (<["my_text"%string := []]> s !! "competitor_text"%string)
      as [c|] eqn:Hc.
    + rewrite lookup_insert_ne by congruence. exact H.
    + rewrite lookup_insert_ne in Hc by done.
      rewrite lookup_insert_ne; [|intros <-; congruence].
      rewrite lookup_insert_ne by congruence. exact H.
Qed.

Lemma init_state_other (s : session) (k : string) :
  k <> "my_text"%string -> k <> "competitor_text"%string ->
  init_state s !! k = s !! k.
Proof.
  intros H1 H2. unfold init_state.
  destruct (s !! "my_text"%string);
    match goal with
    | |- context [match ?m !! "competitor_text"%string with _ => _ end] =>
        destruct (m !! "competitor_text"%string)
    end;
    rewrite ?lookup_insert_ne by congruence; reflexivity.
Qed.

Lemma init_state_idempotent (s : session) :
  init_state (init_state s) = init_state s.
Proof.
  destruct (init_state_lookup s) as [Hc Hm].
  unfold init_state at 1. rewrite Hm. cbv zeta. rewrite Hc. reflexivity.
Qed.

(** X9. Lines 15-18 never overwrite a stored text: after them the two
    keys are present, a key that held a value holds the same value, a
    missing one of the two holds the empty string, any other key is as it
    was, and running them again changes nothing. Nothing is shown and
    nothing is raised. *)
Theorem init_keeps_stored_texts (s : session) :
  log (init_session_state s) = [] /\
  res (init_session_state s) = Returned tt /\
  (forall k v, s !! k = Some v ->
               final (init_session_state s) !! k = Some v) /\
  final (init_session_state s) !! "my_text"%string
    = Some (default [] (s !! "my_text"%string)) /\
  final (init_session_state s) !! "competitor_text"%string
    = Some (default [] (s !! "competitor_text"%string)) /\
  (forall k, k <> "my_text"%string -> k <> "competitor_text"%string ->
             final (init_session_state s) !! k = s !! k) /\
  init_session_state (final (init_session_state s))
  = mkRun [] (final (init_session_state s)) (Returned tt).
Proof.
  rewrite init_session_state_run. cbn [log res final].
  destruct (init_state_lookup s) as [Hc Hm].
  repeat split; try assumption.
  - intros k v. apply init_state_stored.
  - intros k. apply init_state_other.
  - rewrite init_session_state_run, init_state_idempotent. reflexivity.
Qed.

(** A run with no button pressed. *)
Lemma script_idle (w : Widgets) (s : session) :
  fetch_competitor_pressed w = false ->
  fetch_my_page_pressed w = false ->
  analyze_btn w = false ->
  script W w s =
  mkRun (preview_log (default [] (s !! "competitor_text"%string))
         ++ preview_log (default [] (s !! "my_text"%string)))
        (init_state s) (Returned None).
Proof.
  intros Hfc Hfm Ha.
  destruct (init_state_lookup s) as [Hc Hm].
  unfold script. rewrite Hfc, Hfm, Ha.
  pose proof (preview_run _ _ _ Hc) as Hpc.
  pose proof (preview_run _ _ _ Hm) as Hpm.
  io_red. rewrite init_session_state_run. io_red.
  rewrite Hpc. io_red. rewrite Hpm. io_red. rewrite Hm.
  rewrite ?app_nil_r. reflexivity.
Qed.

(** X10. A run in which no fetch button is pressed ends with the session
    state that lines 15-18 left, whether the analysis runs or not and
    whatever it does: every text stored before the run is still stored
    after it. *)
Theorem run_without_fetch_keeps_texts (w : Widgets) (s : session) :
  fetch_competitor_pressed w = false ->
  fetch_my_page_pressed w = false ->
  final (script W w s) = final (init_session_state s) /\
  (forall k v, s !! k = Some v -> final (script W w s) !! k = Some v).
Proof.
  intros Hfc Hfm.
  assert (Hfinal : final (script W w s) = init_state s).
  { destruct (analyze_btn w) eqn:Ha.
    - rewrite (script_analysis W w s Hfc Hfm Ha). reflexivity.
    - rewrite (script_idle w s Hfc Hfm Ha). reflexivity. }
  rewrite Hfinal, init_session_state_run. cbn [final].
  split; [reflexivity|]. intros k v. apply init_state_stored.
Qed.

(** X11. A fetch button writes under its own key only: whatever the
    fetch returns, every other key of the session state is as it was. In
    particular the competitor button never changes the user text and the
    other way round. *)
Theorem fetch_touches_own_key (url : str) (s : session) (k : string) :
  (k <> "competitor_text"%string ->
   final (fetch_competitor W url s) !! k = s !! k) /\
  (k <> "my_text"%string ->
   final (fetch_my_page W url s) !! k = s !! k).
Proof.
  unfold fetch_competitor, fetch_my_page. rewrite !fetch_into_run.
  destruct url as [|u url]; [split; reflexivity|]. cbv zeta.
  destruct (res (fetch_url_content W (u :: url) s)) as [[[|c t]|]|e|];
    cbn [final]; split; intros Hk; rewrite ?lookup_insert_ne by congruence;
    reflexivity.
Qed.

Lemma extracted_text_short (text_elements : list str) :
  Forall (fun t => length (strip t) <= 25) text_elements ->
  extracted_text text_elements = [].
Proof.
  intros H. unfold extracted_text.
  replace (List.filter (fun t => 25 <? length (strip t)) text_elements)
    with (@nil (list N)); [reflexivity|].
  induction H as [|t l Ht _ IH]; [reflexivity|].
  cbn [List.filter]. apply Nat.ltb_ge in Ht. rewrite Ht. exact IH.
Qed.

Lemma length_join_first (sep p : str) (rest : list str) :
  length p <= length (join sep (p :: rest)).
Proof.
  destruct rest as [|q rest]; cbn [join]; [lia|].
  rewrite length_app. lia.
Qed.

Lemma extracted_text_long (text_elements : list str) :
  extracted_text text_elements <> [] ->
  25 < length (extracted_text text_elements).
Proof.
  unfold extracted_text.
  destruct (List.filter (fun t => 25 <? length (strip t)) text_elements)
    as [|t kept] eqn:Hf; [cbn; congruence|].
  intros _.
  assert (Hin : In t (List.filter (fun t => 25 <? length (strip t)) text_elements))
    by (rewrite Hf; left; reflexivity).
  apply List.filter_In in Hin. destruct Hin as [_ Ht].
  apply Nat.ltb_lt in Ht. cbn [List.map].
  pose proof (length_join_first (py " ") (strip t) (List.map strip kept)). lia.
Qed.

(** X12. A page that answers but whose elements are all at most 25
    characters long once stripped (menu items) gives the empty text: the
    pressed button stores nothing, shows no success and asks for no
    rerun. *)
Theorem short_snippets_store_nothing (url : str) (s : session)
        (response : Response) (text_elements : list str) :
  url <> [] ->
  requests_get W url = inr response ->
  ~ (400 <= status_code response < 600)%N ->
  find_all_text W (content response) = inr text_elements ->
  Forall (fun t => length (strip t) <= 25) text_elements ->
  fetch_url_content W url s = mkRun [call_requests_get url] s (Returned (Some [])) /\
  fetch_competitor W url s = mkRun [call_requests_get url] s (Returned tt) /\
  fetch_my_page W url s = mkRun [call_requests_get url] s (Returned tt).
Proof.
  intros Hu Hr Hs Hp Hshort.
  pose proof (fetch_url_content_success W url s response text_elements Hr Hs Hp)
    as Hrun.
  rewrite (extracted_text_short _ Hshort) in Hrun.
  split; [exact Hrun|].
  unfold fetch_competitor, fetch_my_page. rewrite !fetch_into_run.
  destruct url as [|u url]; [congruence|]. rewrite Hrun. split; reflexivity.
Qed.

(** X13. A text that [fetch_url_content] returns is empty or longer than
    25 characters, so a text that a fetch button stores is longer than 25
    characters. *)
Theorem stored_text_is_long (url : str) (s : session) :
  (forall text,
     res (fetch_url_content W url s) = Returned (Some text) ->
     text = [] \/ 25 < length text) /\
  (final (fetch_competitor W url s) <> s ->
   exists text,
     final (fetch_competitor W url s) = <["competitor_text"%string := text]> s /\
     25 < length text) /\
  (final (fetch_my_page W url s) <> s ->
   exists text,
     final (fetch_my_page W url s) = <["my_text"%string := text]> s /\
     25 < length text).
Proof.
  assert (Hlong : forall text,
            res (fetch_url_content W url s) = Returned (Some text) ->
            text = [] \/ 25 < length text).
  { intros text Hres.
    destruct (fetch_url_content_cases W url)
      as [[e He]|(response & elems & H & Hs & Hp)].
    - rewrite (fetch_url_content_failure W url s e He) in Hres. discriminate.
    - rewrite (fetch_url_content_success W url s response elems H Hs Hp) in Hres.
      injection Hres as <-.
      destruct (extracted_text elems) as [|c t] eqn:He; [left; reflexivity|].
      right. rewrite <- He. apply extracted_text_long. congruence. }
  split; [exact Hlong|].
  unfold fetch_competitor, fetch_my_page. rewrite !fetch_into_run.
  destruct url as [|u url]; [split; cbn [final]; congruence|]. cbv zeta.
  destruct (res (fetch_url_content W (u :: url) s)) as [[[|c t]|]|e|] eqn:Hres;
    cbn [final]; split; try congruence; intros _; exists (c :: t);
    (split; [reflexivity|]);
    destruct (Hlong (c :: t) eq_refl) as [H|H]; congruence.
Qed.

(** X14. A run in which the competitor button is pressed and the fetch
    gives a non-empty text stores the text and stops at [st.rerun()]: the
    log holds the request and the success message only, so nothing below
    the button runs in that run, the analysis included even with its
    button pressed. *)
Theorem fetch_success_reruns (w : Widgets) (s : session)
        (response : Response) (text_elements : list str) :
  fetch_competitor_pressed w = true ->
  comp_url w <> [] ->
  requests_get W (comp_url w) = inr response ->
  ~ (400 <= status_code response < 600)%N ->
  find_all_text W (content response) = inr text_elements ->
  extracted_text text_elements <> [] ->
  script W w s
  = mkRun [call_requests_get (comp_url w);
           st_success_fetched (length (extracted_text text_elements))]
          (<["competitor_text"%string := extracted_text text_elements]>
             (final (init_session_state s)))
          Rerun.
Proof.
  intros Hp Hu Hr Hs Hf Hne.
  unfold script. rewrite Hp.
  pose proof (fetch_into_run W "competitor_text" (comp_url w) (init_state s))
    as Hfetch.
  rewrite (fetch_url_content_success W _ (init_state s) response text_elements
             Hr Hs Hf) in Hfetch.
  destruct (comp_url w) as [|u url] eqn:Hurl; [congruence|].
  destruct (extracted_text text_elements) as [|c t] eqn:Ht; [congruence|].
  cbv zeta in Hfetch. cbn [res log app] in Hfetch.
  unfold fetch_competitor.
  io_red. rewrite !init_session_state_run. io_red. rewrite Hfetch.
  reflexivity.
Qed.

End SessionEdges.

(* ===================================================================== *)
(** ** The fetched text has no outer whitespace *)
(* ===================================================================== *)

Section FetchedTextTrimmed.
Import PyStr PyFloat Runtime App.

Lemma lstrip_starts_clean (s : str) : starts_clean (lstrip s).
Proof.
  induction s as [|x s IH]; intros c r H; [discriminate|].
  cbn [lstrip] in H. destruct (isspace x) eqn:Hx.
  - exact (IH c r H).
  - injection H as <- _. exact Hx.
Qed.

Lemma lstrip_fixed (s : str) : starts_clean s -> lstrip s = s.
Proof.
  intros H. destruct s as [|c r]; [reflexivity|].
  cbn [lstrip]. rewrite (H c r eq_refl). reflexivity.
Qed.

(** [lstrip] stops at the latest on a character that is not whitespace. *)
Lemma lstrip_keeps_clean_end (s : str) (c : N) :
  isspace c = false -> exists r, lstrip (s ++ [c]) = r ++ [c].
Proof.
  intros Hc. induction s as [|x s IH]; cbn [app lstrip].
  - rewrite Hc. exists []. reflexivity.
  - destruct (isspace x); [exact IH|]. exists (x :: s). reflexivity.
Qed.

Lemma rev_ends (s r : str) (c : N) : rev s = c :: r -> s = rev r ++ [c].
Proof.
  intros H. rewrite <- (rev_involutive s), H. reflexivity.
Qed.

Lemma rstrip_ends_clean (s : str) : ends_clean (rstrip s).
Proof.
  intros r c H. unfold rstrip in H.
  assert (Hrev : lstrip (rev s) = c :: rev r).
  { rewrite <- (rev_involutive (lstrip (rev s))), H, rev_app_distr.
    reflexivity. }
  exact (lstrip_starts_clean (rev s) c (rev r) Hrev).
Qed.

Lemma rstrip_fixed (s : str) : ends_clean s -> rstrip s = s.
Proof.
  intros H. unfold rstrip. rewrite lstrip_fixed; [apply rev_involutive|].
  intros c r Hr. apply (H (rev r) c). apply rev_ends. exact Hr.
Qed.

Lemma rstrip_keeps_clean_start (s : str) :
  starts_clean s -> starts_clean (rstrip s).
Proof.
  intros Hs. destruct s as [|h t]; [intros c r H; discriminate|].
  pose proof (Hs h t eq_refl) as Hh.
  unfold rstrip. cbn [rev].
  destruct (lstrip_keeps_clean_end (rev t) h Hh) as [r' Hr'].
  rewrite Hr', rev_app_distr. cbn [rev app].
  intros c r H. injection H as <- _. exact Hh.
Qed.

Lemma strip_clean (s : str) :
  starts_clean (strip s) /\ ends_clean (strip s).
Proof.
  unfold strip. split.
  - apply rstrip_keeps_clean_start, lstrip_starts_clean.
  - apply rstrip_ends_clean.
Qed.

Lemma strip_fixed (s : str) : starts_clean s -> ends_clean s -> strip s = s.
Proof.
  intros H1 H2. unfold strip. rewrite (lstrip_fixed s H1).
  apply rstrip_fixed. exact H2.
Qed.

Lemma ends_clean_app (a b : str) : b <> [] -> ends_clean b -> ends_clean (a ++ b).
Proof.
  intros Hb H r c Heq.
  destruct (exists_last Hb) as (b' & x & ->).
  rewrite app_assoc in Heq. apply app_inj_tail in Heq. destruct Heq as [_ <-].
  exact (H b' x eq_refl).
Qed.

(** Joining non-empty clean parts gives a clean text. *)
Lemma join_clean (sep : str) (parts : list str) :
  Forall (fun p => p <> [] /\ starts_clean p /\ ends_clean p) parts ->
  starts_clean (join sep parts) /\ ends_clean (join sep parts) /\
  (parts <> [] -> join sep parts <> []).
Proof.
  induction 1 as [|p rest (Hne & Hs & He) Hrest IH].
  - cbn [join].
    split; [intros c r H; discriminate|].
    split; [intros r c H; destruct r; discriminate|congruence].
  - destruct IH as (IHs & IHe & IHne).
    destruct rest as [|q rest]; cbn [join].
    + split; [exact Hs|split; [exact He|intros _; exact Hne]].
    + assert (Hj : join sep (q :: rest) <> []) by (apply IHne; congruence).
      split; [|split].
      * intros c r H. destruct p as [|x p]; [congruence|].
        injection H as <- _. exact (Hs x p eq_refl).
      * apply ends_clean_app.
        -- destruct sep; cbn [app]; [exact Hj|congruence].
        -- apply ends_clean_app; assumption.
      * intros _. destruct p; [congruence|discriminate].
Qed.

(** X17. The text [fetch_url_content] builds from a page has no
    whitespace at either end: stripping it gives it back, so the length
    counted by the check of the analysis is the length of the text
    fetched. *)
Theorem extracted_text_is_stripped (text_elements : list str) :
  strip (extracted_text text_elements) = extracted_text text_elements.
Proof.
  unfold extracted_text.
  assert (H : Forall (fun p => p <> [] /\ starts_clean p /\ ends_clean p)
                     (List.map strip
                        (List.filter (fun t => 25 <? length (strip t))
                                     text_elements))).
  { apply List.Forall_forall. intros p Hp.
    apply in_map_iff in Hp. destruct Hp as (t & <- & Ht).
    apply List.filter_In in Ht. destruct Ht as [_ Ht].
    apply Nat.ltb_lt in Ht.
    split; [|apply strip_clean].
    intros Heq. rewrite Heq in Ht. cbn in Ht. lia. }
  destruct (join_clean (py " ") _ H) as (Hs & He & _).
  apply strip_fixed; assumption.
Qed.

End FetchedTextTrimmed.

Section RequestsAndRounds.
Import PyStr PyFloat Runtime App.
Context (W : World).

(** X18. A round of the command-line loop reaches the model exactly when
    the keyword and the joined text are both non-empty: there is no
    minimum length, and a text of any length is encoded. *)
Theorem round_reaches_model_iff (target_keyword : str) (lines : list str)
        (s : session) :
  calls (log (Scorer.round W target_keyword lines s)) = [] <->
  (target_keyword = [] \/ join [10%N] lines = []).
Proof.
  unfold Scorer.round.
  destruct target_keyword as [|k kw]; cbn [truthy negb].
  - split; [intros _; left; reflexivity|reflexivity].
  - destruct (join [10%N] lines) as [|x content]; cbn [truthy negb].
    + split; [intros _; right; reflexivity|reflexivity].
    + split; [|intros [H|H]; discriminate].
      io_red.
      destruct (model_encode W (k :: kw)); [cbn; discriminate|].
      destruct (model_encode W (x :: content)); [cbn; discriminate|].
      destruct (model_similarity W _ _); cbn; discriminate.
Qed.

(** X19. A pressed fetch button makes one request, to the URL typed, when
    that URL is not empty, and none when it is empty; it calls no model. *)
Theorem fetch_makes_one_request (url : str) (s : session) :
  calls (log (fetch_competitor W url s))
  = (if truthy url then [call_requests_get url] else []) /\
  calls (log (fetch_my_page W url s))
  = (if truthy url then [call_requests_get url] else []).
Proof.
  unfold fetch_competitor, fetch_my_page. rewrite !fetch_into_run.
  destruct url as [|u url]; [split; reflexivity|]. cbv zeta. cbn [truthy].
  destruct (fetch_url_content_cases W (u :: url))
    as [[e He]|(response & elems & H & Hs & Hp)].
  - rewrite (fetch_url_content_failure W _ s e He). split; reflexivity.
  - rewrite (fetch_url_content_success W _ s response elems H Hs Hp).
    cbn [res log]. destruct (extracted_text elems); split; reflexivity.
Qed.

(** X20. A response with a status from 400 to 599 is not read: whatever
    its content holds, [fetch_url_content] shows the HTTP error with that
    status and returns [None]. *)
Theorem error_status_not_read (url : str) (s : session) (response : Response) :
  requests_get W url = inr response ->
  (400 <= status_code response < 600)%N ->
  fetch_url_content W url s
  = mkRun [call_requests_get url;
           st_error_fetching (HTTPError (status_code response))]
          s (Returned None).
Proof.
  intros H Hs. apply fetch_url_content_failure.
  apply (status_failed W url response H Hs).
Qed.

End RequestsAndRounds.

Section SessionEdgesExamples.
Import PyStr PyFloat Runtime App Demo.

Lemma run_without_fetch_keeps_texts_witness :
  final (script world widgets fetched_session)
  = final (init_session_state fetched_session).
Proof.
  refine (proj1 (run_without_fetch_keeps_texts world widgets fetched_session
                   _ _)); reflexivity.
Defined.

Lemma fetch_touches_own_key_witness :
  final (fetch_competitor world (py "https://them.com/blog") fresh_session)
    !! "my_text"%string
  = fresh_session !! "my_text"%string.
Proof.
  refine (proj1 (fetch_touches_own_key world (py "https://them.com/blog")
                   fresh_session "my_text"%string) _).
  discriminate.
Defined.

Lemma short_snippets_store_nothing_witness :
  fetch_competitor menu_world (py "https://them.com/blog") fetched_session
  = mkRun [call_requests_get (py "https://them.com/blog")] fetched_session
          (Returned tt).
Proof.
  refine (proj1 (proj2 (short_snippets_store_nothing menu_world
            (py "https://them.com/blog") fetched_session
            {| status_code := 200; content := page |}
            [py "Home"; py "  About us  "; py "Blog"] _ _ _ _ _))).
  - vm_compute. discriminate.
  - vm_compute. reflexivity.
  - vm_compute. intros [H _]. apply H. reflexivity.
  - reflexivity.
  - repeat constructor; vm_compute; lia.
Defined.

Lemma stored_text_is_long_witness :
  exists text,
    final (fetch_my_page world (py "https://them.com/blog") fresh_session)
    = <["my_text"%string := text]> fresh_session /\
    25 < length text.
Proof.
  refine (proj2 (proj2 (stored_text_is_long world (py "https://them.com/blog")
                          fresh_session)) _).
  intros H. apply (f_equal (fun m : session => m !! "my_text"%string)) in H.
  vm_compute in H. discriminate H.
Defined.

Lemma fetch_success_reruns_witness :
  script world fetch_widgets ∅
  = mkRun [call_requests_get (py "https://them.com/blog");
           st_success_fetched
             (length (extracted_text [competitor_document; py " Home "]))]
          (<["competitor_text"%string :=
               extracted_text [competitor_document; py " Home "]]>
             (final (init_session_state ∅)))
          Rerun.
Proof.
  apply (fetch_success_reruns world fetch_widgets ∅
           {| status_code := 200; content := page |}
           [competitor_document; py " Home "]).
  - reflexivity.
  - vm_compute. discriminate.
  - vm_compute. reflexivity.
  - vm_compute. intros [H _]. apply H. reflexivity.
  - vm_compute. reflexivity.
  - vm_compute. discriminate.
Defined.

Lemma error_status_not_read_witness :
  fetch_url_content world (py "https://them.com/gone") fresh_session
  = mkRun [call_requests_get (py "https://them.com/gone");
           st_error_fetching (HTTPError 404)]
          fresh_session (Returned None).
Proof.
  apply (error_status_not_read world (py "https://them.com/gone") fresh_session
           {| status_code := 404; content := [] |}).
  - vm_compute. reflexivity.
  - cbn [status_code]. lia.
Defined.

End SessionEdgesExamples.

(* ===================================================================== *)
(** ** The loop of [relevance_scorer.py] *)
(* ===================================================================== *)

Section ScorerLoop.
Import PyStr PyFloat Runtime Scorer.
Context (W : World).

(** A round with a keyword never breaks the loop. *)
Lemma round_continues (target_keyword : str) (lines : list str)
      (s : session) (c : Control) :
  target_keyword <> [] ->
  res (round W target_keyword lines s) = Returned c -> c = Continue.
Proof.
  intros Hk. unfold round.
  destruct target_keyword as [|k kw]; [congruence|]. cbn [truthy negb].
  destruct (join [10%N] lines) as [|x content].
  - cbn. congruence.
  - io_red.
    destruct (model_encode W (k :: kw)); [cbn; congruence|].
    destruct (model_encode W (x :: content)); [cbn; congruence|].
    destruct (model_similarity W _ _); cbn; congruence.
Qed.

(** Inside the inner loop: the non-empty lines are appended up to the
    first empty one, where the round is played. *)
Lemma main_from_reading (target_keyword : str) (read lines rest : list str)
      (s : session) :
  Forall (fun line => line <> []) lines ->
  main_from W (ReadingText target_keyword read) (lines ++ [] :: rest) s
  = (c ← round W target_keyword (read ++ lines);
     match c with
     | Break => mret tt
     | Continue => main_from W AwaitKeyword rest
     end) s.
Proof.
  intros H. revert read. induction H as [|line lines Hl _ IH]; intros read.
  - cbn [app main_from truthy]. rewrite app_nil_r. reflexivity.
  - cbn [app main_from]. destruct line as [|x line]; [congruence|].
    cbn [truthy]. rewrite IH, <- app_assoc. reflexivity.
Qed.

Lemma main_from_reading_eof (target_keyword : str) (read lines : list str)
      (s : session) :
  Forall (fun line => line <> []) lines ->
  main_from W (ReadingText target_keyword read) lines s
  = mkRun [] s (Raised (Exception "EOFError")).
Proof.
  intros H. revert read. induction H as [|line lines Hl _ IH]; intros read.
  - reflexivity.
  - cbn [main_from]. destruct line as [|x line]; [congruence|].
    cbn [truthy]. apply IH.
Qed.

(** X15. The first empty line ends the text of a round: with a keyword
    and non-empty lines up to that empty line, the loop plays the round on
    exactly these lines and goes on with what follows the empty line, which
    it reads as the next keyword; lines pasted after a blank line are not
    part of the text scored. *)
Theorem blank_line_ends_text (target_keyword : str) (lines rest : list str)
        (s : session) :
  target_keyword <> [] ->
  Forall (fun line => line <> []) lines ->
  main W (target_keyword :: lines ++ [] :: rest) s
  = (round W target_keyword lines;; main W rest) s.
Proof.
  intros Hk Hl. unfold main. cbn [main_from].
  destruct target_keyword as [|k kw] eqn:Hkw; [congruence|].
  cbn [truthy negb]. rewrite (main_from_reading _ [] lines rest s Hl).
  cbn [app]. io_red.
  pose proof (round_continues (k :: kw) lines s) as Hc.
  destruct (round W (k :: kw) lines s) as [l f r]. cbn [res log final] in *.
  destruct r as [c| |]; try reflexivity.
  rewrite (Hc c); [reflexivity|congruence|reflexivity].
Qed.

(** X16. How the loop ends: on an empty keyword it returns without
    reading further; when the input ends where a keyword is expected, or
    inside a text that no empty line has closed, [input()] raises
    [EOFError] and that text is never sent to the model. *)
Theorem loop_ends (target_keyword : str) (lines rest : list str)
        (s : session) :
  main W ([] :: rest) s = mkRun [] s (Returned tt) /\
  main W [] s = mkRun [] s (Raised (Exception "EOFError")) /\
  (target_keyword <> [] ->
   Forall (fun line => line <> []) lines ->
   main W (target_keyword :: lines) s
   = mkRun [] s (Raised (Exception "EOFError"))).
Proof.
  split; [reflexivity|split; [reflexivity|]].
  intros Hk Hl. unfold main. cbn [main_from].
  destruct target_keyword as [|k kw]; [congruence|]. cbn [truthy negb].
  apply main_from_reading_eof. exact Hl.
Qed.

End ScorerLoop.

Section ScorerLoopExamples.
Import PyStr PyFloat Runtime Scorer Demo.

(** A text with a blank line in the middle: the first paragraph is scored
    and the second one is read as the keyword of the next round. *)
Lemma blank_line_ends_text_witness :
  main world (topic :: [py "first paragraph"] ++ [] :: [py "second paragraph"; []; []])
       fresh_session
  = (round world topic [py "first paragraph"];;
     main world [py "second paragraph"; []; []]) fresh_session.
Proof.
  apply (blank_line_ends_text world topic [py "first paragraph"]
           [py "second paragraph"; []; []] fresh_session).
  - vm_compute. discriminate.
  - repeat constructor. vm_compute. discriminate.
Defined.

Lemma loop_ends_witness :
  main world (topic :: [py "a text without its closing empty line"])
       fresh_session
  = mkRun [] fresh_session (Raised (Exception "EOFError")).
Proof.
  refine (proj2 (proj2 (loop_ends world topic
            [py "a text without its closing empty line"] [] fresh_session))
            _ _).
  - vm_compute. discriminate.
  - repeat constructor. vm_compute. discriminate.
Defined.

End ScorerLoopExamples.
